(** * automated-garden: the firmware's watering executor, the Zone model,
      the WaterSchedule delete hooks and the watering decision

    The development embeds these parts of the repository:

    - [Controller]: the ESP32 firmware (garden-controller.ino, mqtt.ino): the
      watering queue, [waterPlantTask], [waterIntervalTask], the stop commands
      and [waterPublisherTask], and in [Controller.Light] the grow light.
      Each FreeRTOS task is a step function on the shared device state; a step
      that returns [None] is a task blocked in a FreeRTOS call.
    - [SingleFile]: the buttons and the skip command of the older single-file
      firmware.
    - [Pkg]: the Go [Zone] record with [Patch] and the [Has...Control] tests.
    - [Server]: [GetZonesUsingWaterSchedule], the before/after delete hooks
      of the WaterSchedule resource and [weatherClientsExist].
    - [Storage]: the generic [GetOne] and [GetMultiple].
    - [Worker]: the watering decision taken when a schedule fires.  Its Go
      source is not among the embedded files and is modelled from the
      specification. *)

From Stdlib Require Import ZArith QArith Qminmax Lia Ascii String List Bool DecimalString.
From stdpp Require Import base option list gmap strings.

Open Scope Z_scope.

(** Go's [(T, error)] results and ArduinoJson's fallible reads. *)
Inductive result (A : Type) : Type :=
| Ok (a : A)
| Err (e : string).
Arguments Ok {A} a.
Arguments Err {A} e.

Definition is_err {A} (r : result A) : bool :=
  match r with Ok _ => false | Err _ => true end.

#[export] Instance result_bind : MBind result :=
  fun A B f r => match r with Ok a => f a | Err e => Err e end.

(** [fmt.Errorf("...: %w", err)] *)
Definition wrap {A} (context : string) (r : result A) : result A :=
  match r with Ok a => Ok a | Err e => Err (context +:+ ": " +:+ e) end.

(** [printf]'s [%d] and [%lu]. *)
Definition decimal (z : Z) : string := NilZero.string_of_int (Z.to_int z).

(* ===================================================================== *)
(** * The firmware *)
(* ===================================================================== *)
Module Controller.

(** [unsigned long] is 32 bits wide on the ESP32. *)
Definition ULONG_MAX : Z := 2 ^ 32 - 1.
Definition ulong (z : Z) : Z := z mod 2 ^ 32.

(** FreeRTOS: a wait of [portMAX_DELAY] ticks never times out. *)
Definition portMAX_DELAY : Z := ULONG_MAX.

Record WateringEvent := mkWateringEvent {
  plant_position : Z;      (* int *)
  duration : Z;            (* unsigned long *)
  id : string              (* const char* *)
}.

Definition set_duration (we : WateringEvent) (d : Z) : WateringEvent :=
  mkWateringEvent (plant_position we) d (id we).

(** The members of the JSON document that [processIncomingMessage] reads;
    [None] is a member that is missing or not of the requested type. *)
Record JsonDoc := mkJsonDoc {
  doc_plant_position : option Z;
  doc_duration : option Z;
  doc_id : option string
}.

(** [strcmp] of the incoming topic against the subscribed topics. *)
Inductive Topic :=
| waterCommandTopic
| stopCommandTopic
| stopAllCommandTopic
| lightCommandTopic
| unknownTopic.

(** One call of [plantOn] or [plantOff]: both index [plants[id]]. *)
Inductive Actuation :=
| On (id : Z)
| Off (id : Z).

Definition actuated (a : Actuation) : Z :=
  match a with On i => i | Off i => i end.

(** Where [waterPlantTask] stands in its loop body. *)
Inductive TaskState :=
| Receiving                                   (* at xQueueReceive *)
| NotifyWait (we : WateringEvent) (start : Z) (* in xTaskNotifyWait, valve open *)
| Publishing (we : WateringEvent).            (* at xQueueSend(waterPublisherQueue) *)

Record Device := mkDevice {
  wateringQueue : list WateringEvent;
  waterPublisherQueue : list WateringEvent;
  notified : bool;               (* pending notification of waterPlantTask *)
  task : TaskState;
  previousMillis : Z;
  intervalLoop : option Z;       (* the [i] of waterIntervalTask's for loop *)
  gpio : list Actuation;         (* plantOn / plantOff calls, oldest first *)
  published : list string        (* messages published on waterDataTopic *)
}.

Definition set_wateringQueue (q : list WateringEvent) (d : Device) : Device :=
  mkDevice q (waterPublisherQueue d) (notified d) (task d) (previousMillis d)
           (intervalLoop d) (gpio d) (published d).
Definition set_waterPublisherQueue (q : list WateringEvent) (d : Device) : Device :=
  mkDevice (wateringQueue d) q (notified d) (task d) (previousMillis d)
           (intervalLoop d) (gpio d) (published d).
Definition set_notified (b : bool) (d : Device) : Device :=
  mkDevice (wateringQueue d) (waterPublisherQueue d) b (task d) (previousMillis d)
           (intervalLoop d) (gpio d) (published d).
Definition set_task (t : TaskState) (d : Device) : Device :=
  mkDevice (wateringQueue d) (waterPublisherQueue d) (notified d) t (previousMillis d)
           (intervalLoop d) (gpio d) (published d).
Definition set_previousMillis (p : Z) (d : Device) : Device :=
  mkDevice (wateringQueue d) (waterPublisherQueue d) (notified d) (task d) p
           (intervalLoop d) (gpio d) (published d).
Definition set_intervalLoop (i : option Z) (d : Device) : Device :=
  mkDevice (wateringQueue d) (waterPublisherQueue d) (notified d) (task d)
           (previousMillis d) i (gpio d) (published d).
Definition log_gpio (a : Actuation) (d : Device) : Device :=
  mkDevice (wateringQueue d) (waterPublisherQueue d) (notified d) (task d)
           (previousMillis d) (intervalLoop d) (gpio d ++ [a]) (published d).
Definition log_published (m : string) (d : Device) : Device :=
  mkDevice (wateringQueue d) (waterPublisherQueue d) (notified d) (task d)
           (previousMillis d) (intervalLoop d) (gpio d) (published d ++ [m]).

(** What the tasks and callbacks of the firmware can do next. *)
Inductive Input :=
| Incoming (topic : Topic) (doc : JsonDoc)  (* client.loop() delivers a message *)
| CallWaterPlant (we : WateringEvent)       (* another task calls waterPlant *)
| CallStopWatering                          (* another task calls stopWatering *)
| RunWaterIntervalTask (millis : Z)
| RunWaterPlantTask (millis : Z)
| RunWaterPublisherTask (connected : bool).

Section Firmware.

(** config.h *)
Variable NUM_PLANTS : Z.
Variable DEFAULT_WATER_TIME : Z.
Variable INTERVAL : Z.
Variable QUEUE_SIZE : nat.
(** FreeRTOSConfig.h *)
Variable portTICK_PERIOD_MS : Z.

(** [unsigned long previousMillis = -INTERVAL;] *)
Definition setup : Device :=
  mkDevice [] [] false Receiving (ulong (- INTERVAL)) None [] [].

(** [xQueueSend(q, &we, portMAX_DELAY)]: blocks while the queue is full. *)
Definition xQueueSend (q : list WateringEvent) (we : WateringEvent)
  : option (list WateringEvent) :=
  if (length q <? QUEUE_SIZE)%nat then Some (q ++ [we]) else None.

Definition out_of_range (we : WateringEvent) : bool :=
  (NUM_PLANTS <=? plant_position we) || (plant_position we <? 0).

Definition waterPlant (we : WateringEvent) (d : Device) : option Device :=
  if out_of_range we then Some d
  else q ← xQueueSend (wateringQueue d) we; Some (set_wateringQueue q d).

Definition stopWatering (d : Device) : Device := set_notified true d.

(** [xQueueReset] then [xTaskNotify]. *)
Definition stopAllWatering (d : Device) : Device :=
  set_notified true (set_wateringQueue [] d).

(** [doc["plant_position"] | -1], [doc["duration"] | 0], [doc["id"] | "N/A"];
    the int read for the duration is converted to [unsigned long]. *)
Definition deserialize (doc : JsonDoc) : WateringEvent :=
  mkWateringEvent (default (-1) (doc_plant_position doc))
                  (ulong (default 0 (doc_duration doc)))
                  (default "N/A"%string (doc_id doc)).

(** [changeLight] drives only the light pin, which is not part of [Device]. *)
Definition processIncomingMessage (topic : Topic) (doc : JsonDoc) (d : Device)
  : option Device :=
  match topic with
  | waterCommandTopic => waterPlant (deserialize doc) d
  | stopCommandTopic => Some (stopWatering d)
  | stopAllCommandTopic => Some (stopAllWatering d)
  | lightCommandTopic => Some d
  | unknownTopic => Some d
  end.

(** The test of [waterIntervalTask], in [unsigned long] arithmetic. *)
Definition interval_elapsed (previous current : Z) : bool :=
  INTERVAL <=? ulong (current - previous).

(** One step of [waterIntervalTask]: the head of the while loop when the task
    is outside its for loop, one [waterPlant] call of the for loop otherwise. *)
Definition waterIntervalTask (currentMillis : Z) (d : Device) : option Device :=
  match intervalLoop d with
  | None =>
      if interval_elapsed (previousMillis d) currentMillis
      then Some (set_intervalLoop (Some 0) (set_previousMillis currentMillis d))
      else Some d
  | Some i =>
      if i <? NUM_PLANTS
      then d' ← waterPlant (mkWateringEvent i (ulong DEFAULT_WATER_TIME) "N/A") d;
           Some (set_intervalLoop (Some (i + 1)) d')
      else Some (set_intervalLoop None d)
  end.

(** [if (we.duration == 0) we.duration = DEFAULT_WATER_TIME;] *)
Definition normalize (we : WateringEvent) : WateringEvent :=
  if duration we =? 0 then set_duration we (ulong DEFAULT_WATER_TIME) else we.

(** The last argument of [xTaskNotifyWait]. *)
Definition xTicksToWait (we : WateringEvent) : Z :=
  duration we / portTICK_PERIOD_MS.

(** [xTaskNotifyWait] returns once the task is notified or the ticks have
    passed; [elapsed] is what [millis()] has advanced since [start]. *)
Definition timed_out (we : WateringEvent) (elapsed : Z) : bool :=
  (xTicksToWait we <? portMAX_DELAY) &&
  (xTicksToWait we * portTICK_PERIOD_MS <=? elapsed).

(** One step of [waterPlantTask]. *)
Definition waterPlantTask (millis : Z) (d : Device) : option Device :=
  match task d with
  | Receiving =>
      match wateringQueue d with
      | [] => Some d
      | we :: q =>
          let we := normalize we in
          Some (set_task (NotifyWait we millis)
                 (log_gpio (On (plant_position we))
                   (set_notified false (set_wateringQueue q d))))
      end
  | NotifyWait we start =>
      let elapsed := ulong (millis - start) in
      if notified d || timed_out we elapsed
      then Some (set_task (Publishing (set_duration we elapsed))
                  (log_gpio (Off (plant_position we)) (set_notified false d)))
      else None
  | Publishing we =>
      q ← xQueueSend (waterPublisherQueue d) we;
      Some (set_task Receiving (set_waterPublisherQueue q d))
  end.

(** [sprintf(message, "water,plant=%d millis=%lu", ...)] *)
Definition message (we : WateringEvent) : string :=
  ("water,plant=" +:+ decimal (plant_position we) +:+
   " millis=" +:+ decimal (duration we))%string.

(** One step of [waterPublisherTask]; it blocks on an empty queue. *)
Definition waterPublisherTask (connected : bool) (d : Device) : option Device :=
  match waterPublisherQueue d with
  | [] => None
  | we :: q =>
      let d := set_waterPublisherQueue q d in
      Some (if connected then log_published (message we) d else d)
  end.

Definition step (d : Device) (i : Input) : option Device :=
  match i with
  | Incoming topic doc => processIncomingMessage topic doc d
  | CallWaterPlant we => waterPlant we d
  | CallStopWatering => Some (stopWatering d)
  | RunWaterIntervalTask millis => waterIntervalTask millis d
  | RunWaterPlantTask millis => waterPlantTask millis d
  | RunWaterPublisherTask connected => waterPublisherTask connected d
  end.

Fixpoint run (d : Device) (inputs : list Input) : option Device :=
  match inputs with
  | [] => Some d
  | i :: inputs => d' ← step d i; run d' inputs
  end.

(** The instants at which [waterIntervalTask] waters, given what [millis()]
    returns at the head of each iteration of its while loop. *)
Fixpoint fire_instants (previous : Z) (readings : list Z) : list Z :=
  match readings with
  | [] => []
  | current :: readings =>
      if interval_elapsed previous current
      then current :: fire_instants current readings
      else fire_instants previous readings
  end.

(** ** Properties of the firmware *)

Local Ltac split3 := split; [|split].

Definition in_range (we : WateringEvent) : Prop :=
  0 <= plant_position we < NUM_PLANTS.

Definition task_in_range (t : TaskState) : Prop :=
  match t with
  | Receiving => True
  | NotifyWait we _ => in_range we
  | Publishing we => in_range we
  end.

(** Everything that can reach [plants[id]] is a valid index. *)
Definition positions_in_range (d : Device) : Prop :=
  Forall in_range (wateringQueue d) /\
  task_in_range (task d) /\
  Forall (fun a => 0 <= actuated a < NUM_PLANTS) (gpio d).

Lemma out_of_range_spec (we : WateringEvent) :
  out_of_range we = false <-> in_range we.
Proof.
  unfold out_of_range, in_range.
  rewrite orb_false_iff, Z.leb_gt, Z.ltb_ge. lia.
Qed.

Lemma waterPlant_rejects (we : WateringEvent) (d : Device) :
  ~ in_range we -> waterPlant we d = Some d.
Proof.
  intros Hout. unfold waterPlant.
  destruct (out_of_range we) eqn:E; [reflexivity|].
  apply out_of_range_spec in E. contradiction.
Qed.

Lemma waterPlant_inv (we : WateringEvent) (d d' : Device) :
  waterPlant we d = Some d' ->
  d' = d \/ (in_range we /\ d' = set_wateringQueue (wateringQueue d ++ [we]) d).
Proof.
  unfold waterPlant, xQueueSend.
  destruct (out_of_range we) eqn:E.
  - intros [= <-]. now left.
  - apply out_of_range_spec in E.
    destruct (length (wateringQueue d) <? QUEUE_SIZE)%nat; simpl; [|discriminate].
    intros [= <-]. right. split; [exact E | reflexivity].
Qed.

Lemma waterPlant_preserves (we : WateringEvent) (d d' : Device) :
  positions_in_range d -> waterPlant we d = Some d' -> positions_in_range d'.
Proof.
  intros (Hq & Ht & Hg) H.
  destruct (waterPlant_inv _ _ _ H) as [-> | [Hr ->]]; [easy|].
  split3; simpl; try assumption.
  apply Forall_app_2; [assumption | now constructor].
Qed.

Lemma normalize_position (we : WateringEvent) :
  plant_position (normalize we) = plant_position we.
Proof. unfold normalize. now destruct (duration we =? 0). Qed.

Lemma gpio_snoc_in_range (l : list Actuation) (a : Actuation) :
  Forall (fun a => 0 <= actuated a < NUM_PLANTS) l ->
  0 <= actuated a < NUM_PLANTS ->
  Forall (fun a => 0 <= actuated a < NUM_PLANTS) (l ++ [a]).
Proof. intros Hl Ha. apply Forall_app_2; [assumption | now constructor]. Qed.

Lemma step_preserves_range (d d' : Device) (i : Input) :
  positions_in_range d -> step d i = Some d' -> positions_in_range d'.
Proof.
  intros Hinv Hstep. pose proof Hinv as (Hq & Ht & Hg).
  destruct i as [topic doc|we| |millis|millis|connected]; simpl in Hstep.
  - destruct topic; simpl in Hstep.
    + eapply waterPlant_preserves; eauto.
    + injection Hstep as <-. now split3.
    + injection Hstep as <-. split3; simpl; auto.
    + now injection Hstep as <-.
    + now injection Hstep as <-.
  - eapply waterPlant_preserves; eauto.
  - injection Hstep as <-. now split3.
  - unfold waterIntervalTask in Hstep.
    destruct (intervalLoop d) as [i|].
    + destruct (i <? NUM_PLANTS).
      * destruct (waterPlant _ d) as [d1|] eqn:E; simpl in Hstep; [|discriminate].
        injection Hstep as <-.
        destruct (waterPlant_preserves _ _ _ Hinv E) as (Hq1 & Ht1 & Hg1).
        now split3.
      * injection Hstep as <-. now split3.
    + destruct (interval_elapsed _ _); injection Hstep as <-; [|assumption].
      now split3.
  - unfold waterPlantTask in Hstep.
    destruct (task d) as [|we start|we] eqn:Etask.
    + destruct (wateringQueue d) as [|we q] eqn:Eq.
      * now injection Hstep as <-.
      * injection Hstep as <-. inversion Hq as [|? ? Hwe Hq']; subst.
        assert (in_range (normalize we)) as Hn
          by (unfold in_range; now rewrite normalize_position).
        split3; simpl; auto. now apply gpio_snoc_in_range.
    + destruct (notified d || timed_out we _); [|discriminate].
      injection Hstep as <-. simpl in Ht.
      split3; simpl; auto. now apply gpio_snoc_in_range.
    + destruct (xQueueSend _ we) as [q|]; simpl in Hstep; [|discriminate].
      injection Hstep as <-. split3; simpl; auto.
  - unfold waterPublisherTask in Hstep.
    destruct (waterPublisherQueue d) as [|we q]; [discriminate|].
    injection Hstep as <-. destruct connected; split3; simpl; auto.
Qed.

Lemma run_preserves_range (inputs : list Input) : forall d d',
  positions_in_range d -> run d inputs = Some d' -> positions_in_range d'.
Proof.
  induction inputs as [|i inputs IH]; intros d d' Hinv Hrun; simpl in Hrun.
  - now injection Hrun as <-.
  - destruct (step d i) as [d1|] eqn:E; simpl in Hrun; [|discriminate].
    eapply IH; [|exact Hrun]. eapply step_preserves_range; eauto.
Qed.

Lemma setup_in_range : positions_in_range setup.
Proof. split3; simpl; constructor. Qed.

(** *** Accounting of executions and telemetry *)

Definition is_on (a : Actuation) : bool :=
  match a with On _ => true | Off _ => false end.
Definition is_off (a : Actuation) : bool :=
  match a with On _ => false | Off _ => true end.

Fixpoint count {A} (p : A -> bool) (l : list A) : nat :=
  match l with
  | [] => 0
  | a :: l => ((if p a then 1 else 0) + count p l)%nat
  end.

Lemma count_app {A} (p : A -> bool) (l1 l2 : list A) :
  count p (l1 ++ l2) = (count p l1 + count p l2)%nat.
Proof. induction l1 as [|a l1 IH]; simpl; [reflexivity | rewrite IH; lia]. Qed.

(** Valves opened and valves closed so far. *)
Definition opened (d : Device) : nat := count is_on (gpio d).
Definition closed (d : Device) : nat := count is_off (gpio d).

(** 1 while the valve of an event is open. *)
Definition in_flight (d : Device) : nat :=
  match task d with NotifyWait _ _ => 1 | _ => 0 end%nat.

(** Executed events whose telemetry is still to be handled: those in
    waterPublisherQueue and the one waterPlantTask is about to send. *)
Definition unpublished (d : Device) : nat :=
  (length (waterPublisherQueue d) +
   match task d with Publishing _ => 1 | _ => 0 end)%nat.

Definition is_publisher_run (i : Input) : bool :=
  match i with RunWaterPublisherTask _ => true | _ => false end.
Definition is_connected_run (i : Input) : bool :=
  match i with RunWaterPublisherTask true => true | _ => false end.

(** Inputs that can put an event on the watering queue. *)
Definition may_enqueue (i : Input) : bool :=
  match i with
  | Incoming waterCommandTopic _ => true
  | CallWaterPlant _ => true
  | RunWaterIntervalTask _ => true
  | _ => false
  end.

Local Ltac step_cases H :=
  unfold step, processIncomingMessage, waterIntervalTask, waterPlantTask,
    waterPublisherTask, waterPlant, xQueueSend in H;
  repeat (case_match; simplify_option_eq);
  try discriminate.

Lemma step_accounting (d d' : Device) (i : Input) :
  step d i = Some d' ->
  (closed d' + unpublished d =
     closed d + unpublished d' + (if is_publisher_run i then 1 else 0))%nat /\
  (length (published d') =
     length (published d) + (if is_connected_run i then 1 else 0))%nat /\
  (opened d' + in_flight d + closed d = opened d + in_flight d' + closed d')%nat.
Proof.
  intros H. step_cases H.
  all: unfold closed, opened, unpublished, in_flight; simpl.
  all: repeat match goal with
              | E : task _ = _ |- _ => rewrite E
              | E : waterPublisherQueue _ = _ |- _ => rewrite E
              end.
  all: rewrite ?count_app, ?length_app; simpl.
  all: repeat split; lia.
Qed.

Lemma run_accounting (inputs : list Input) : forall d d',
  run d inputs = Some d' ->
  (closed d' + unpublished d =
     closed d + unpublished d' + count is_publisher_run inputs)%nat /\
  (length (published d') =
     length (published d) + count is_connected_run inputs)%nat /\
  (opened d' + in_flight d + closed d = opened d + in_flight d' + closed d')%nat.
Proof.
  induction inputs as [|i inputs IH]; intros d d' Hrun; simpl in Hrun.
  - injection Hrun as <-. simpl. lia.
  - destruct (step d i) as [d1|] eqn:E; simpl in Hrun; [|discriminate].
    destruct (step_accounting _ _ _ E) as (A1 & A2 & A3).
    destruct (IH _ _ Hrun) as (B1 & B2 & B3).
    simpl. lia.
Qed.

Lemma is_connected_le_publisher (inputs : list Input) :
  (count is_connected_run inputs <= count is_publisher_run inputs)%nat.
Proof.
  induction inputs as [|i inputs IH]; simpl; [lia|].
  destruct i as [| | | | |[]]; simpl; lia.
Qed.




Lemma normalize_duration (we : WateringEvent) :
  duration (normalize we) =
  if duration we =? 0 then ulong DEFAULT_WATER_TIME else duration we.
Proof. unfold normalize. now destruct (duration we =? 0). Qed.

(** With nothing new enqueued an empty watering queue stays empty and no
    valve is opened. *)
Lemma quiet_step (d d' : Device) (i : Input) :
  may_enqueue i = false -> wateringQueue d = [] -> step d i = Some d' ->
  wateringQueue d' = [] /\ opened d' = opened d.
Proof.
  intros Hq He H. destruct i as [[] doc|we| |millis|millis|connected];
    try discriminate Hq; simpl in H.
  - now injection H as <-.
  - now injection H as <-.
  - now injection H as <-.
  - now injection H as <-.
  - now injection H as <-.
  - unfold waterPlantTask in H. rewrite He in H.
    destruct (task d) as [|we start|we].
    + now injection H as <-.
    + destruct (notified d || timed_out we _); [|discriminate].
      injection H as <-. unfold opened. simpl. rewrite count_app. simpl.
      split; [assumption | lia].
    + destruct (xQueueSend _ we); simpl in H; [|discriminate].
      now injection H as <-.
  - unfold waterPublisherTask in H.
    destruct (waterPublisherQueue d); [discriminate|].
    injection H as <-. now destruct connected.
Qed.

Lemma quiet_run (inputs : list Input) : forall d d',
  forallb (fun i => negb (may_enqueue i)) inputs = true ->
  wateringQueue d = [] -> run d inputs = Some d' ->
  wateringQueue d' = [] /\ opened d' = opened d.
Proof.
  induction inputs as [|i inputs IH]; intros d d' Hq He Hrun; simpl in *.
  - now injection Hrun as <-.
  - apply andb_true_iff in Hq as [Hi Hq]. apply negb_true_iff in Hi.
    destruct (step d i) as [d1|] eqn:E; simpl in Hrun; [|discriminate].
    destruct (quiet_step _ _ _ Hi He E) as [He1 Ho1].
    destruct (IH _ _ Hq He1 Hrun) as [He2 Ho2].
    split; [assumption | congruence].
Qed.

(** *** waterIntervalTask *)

Lemma fire_instants_head (previous : Z) (readings : list Z) (t : Z) :
  fire_instants previous readings !! 0%nat = Some t ->
  INTERVAL <= ulong (t - previous).
Proof.
  induction readings as [|current readings IH]; simpl; [discriminate|].
  destruct (interval_elapsed previous current) eqn:E; [|exact IH].
  simpl. intros [= <-]. unfold interval_elapsed in E. now apply Z.leb_le in E.
Qed.

(** When the test of the while loop succeeds the task takes the present
    reading of [millis()] as the reference of the next interval. *)
Lemma waterIntervalTask_anchor (d : Device) (currentMillis : Z) :
  intervalLoop d = None ->
  interval_elapsed (previousMillis d) currentMillis = true ->
  exists d', waterIntervalTask currentMillis d = Some d' /\
             previousMillis d' = currentMillis /\ intervalLoop d' = Some 0.
Proof.
  intros Hloop Hdue. unfold waterIntervalTask. rewrite Hloop, Hdue.
  eexists; repeat split.
Qed.

Lemma waterIntervalTask_waits (d : Device) (currentMillis : Z) :
  intervalLoop d = None ->
  interval_elapsed (previousMillis d) currentMillis = false ->
  waterIntervalTask currentMillis d = Some d.
Proof.
  intros Hloop Hdue. unfold waterIntervalTask. now rewrite Hloop, Hdue.
Qed.

(** C1 (as the firmware has it): two consecutive instants at which
    waterIntervalTask waters are at least INTERVAL milliseconds apart, in the
    32-bit arithmetic of [millis()]; the second is not tied to the first
    plus INTERVAL, since each firing restarts the interval from the reading
    of [millis()] at which it happens. *)
Theorem waterIntervalTask_fires_at_least_interval_apart
    (readings : list Z) : forall (previous : Z) (i : nat) (t1 t2 : Z),
  fire_instants previous readings !! i = Some t1 ->
  fire_instants previous readings !! S i = Some t2 ->
  INTERVAL <= ulong (t2 - t1).
Proof.
  induction readings as [|current readings IH]; intros previous i t1 t2; simpl.
  - discriminate.
  - destruct (interval_elapsed previous current) eqn:E; [|apply IH].
    destruct i as [|i]; simpl.
    + intros [= <-] H2. eapply fire_instants_head; eauto.
    + apply IH.
Qed.

(** C8: waterPlant leaves the queue alone when the position is outside
    0..NUM_PLANTS-1, a water command without plant_position is read as
    position -1 and rejected, and so in every state the firmware reaches from
    setup the queued events, the event being executed and every index passed
    to plantOn and plantOff lie in 0..NUM_PLANTS-1. *)
Theorem watering_queue_positions_in_range (inputs : list Input) (d : Device) :
  run setup inputs = Some d ->
  (forall we d0, ~ in_range we -> waterPlant we d0 = Some d0) /\
  (forall doc d0, doc_plant_position doc = None ->
     plant_position (deserialize doc) = -1 /\
     processIncomingMessage waterCommandTopic doc d0 = Some d0) /\
  Forall in_range (wateringQueue d) /\
  task_in_range (task d) /\
  Forall (fun a => 0 <= actuated a < NUM_PLANTS) (gpio d).
Proof.
  intros Hrun. split; [|split].
  - apply waterPlant_rejects.
  - intros doc d0 Hnone.
    assert (plant_position (deserialize doc) = -1) as Hpos
      by (unfold deserialize; now rewrite Hnone).
    split; [exact Hpos|]. apply waterPlant_rejects.
    unfold in_range. rewrite Hpos. lia.
  - exact (run_preserves_range inputs setup d setup_in_range Hrun).
Qed.

(** *** waterPlantTask and the telemetry *)


(** C5: an event of duration 0 taken from the queue gets DEFAULT_WATER_TIME
    as its duration before plantOn is called, and the wait that keeps the
    valve open is asked for DEFAULT_WATER_TIME / portTICK_PERIOD_MS ticks,
    which is more than none; no event is waited on with a duration of 0. *)
Theorem zero_duration_uses_default
    (d : Device) (we : WateringEvent) (q : list WateringEvent) (millis : Z) :
  task d = Receiving ->
  wateringQueue d = we :: q ->
  duration we = 0 ->
  0 < portTICK_PERIOD_MS ->
  portTICK_PERIOD_MS <= DEFAULT_WATER_TIME < 2 ^ 32 ->
  let we' := set_duration we DEFAULT_WATER_TIME in
  waterPlantTask millis d =
    Some (set_task (NotifyWait we' millis)
           (log_gpio (On (plant_position we))
             (set_notified false (set_wateringQueue q d)))) /\
  0 < xTicksToWait we' /\
  (forall e, 0 <= duration e -> 0 < duration (normalize e)).
Proof.
  intros Ht Hq Hz HP HD we'.
  assert (ulong DEFAULT_WATER_TIME = DEFAULT_WATER_TIME) as Hul
    by (unfold ulong; apply Z.mod_small; lia).
  split; [|split].
  - unfold waterPlantTask. rewrite Ht, Hq. unfold normalize.
    rewrite Hz. simpl. rewrite Hul. reflexivity.
  - unfold xTicksToWait, we'. simpl. apply Z.div_str_pos. lia.
  - intros e He. rewrite normalize_duration.
    destruct (duration e =? 0) eqn:E; [rewrite Hul; lia|].
    apply Z.eqb_neq in E. lia.
Qed.

(** The single-file firmware keeps a [skipValve] flag per valve and, after the
    same replacement of a duration of 0, waters only when the flag of the valve
    is clear; [None] is an index outside [skipValve]. *)
Definition waterPlantTask_receive_with_skip
    (skipValve : list bool) (millis : Z) (d : Device)
  : option (list bool * Device) :=
  match wateringQueue d with
  | [] => Some (skipValve, d)
  | we :: q =>
      let we := normalize we in
      let d := set_notified false (set_wateringQueue q d) in
      skip ← skipValve !! Z.to_nat (plant_position we);
      if skip : bool
      then Some (<[Z.to_nat (plant_position we) := false]> skipValve, d)
      else Some (skipValve,
                 set_task (NotifyWait we millis)
                   (log_gpio (On (plant_position we)) d))
  end.

Lemma waterPlantTask_receive_with_skip_default
    (skipValve skipValve' : list bool) (millis : Z) (d d' : Device)
    (we : WateringEvent) (q : list WateringEvent) :
  wateringQueue d = we :: q -> duration we = 0 ->
  waterPlantTask_receive_with_skip skipValve millis d = Some (skipValve', d') ->
  gpio d' <> gpio d ->
  task d' = NotifyWait (set_duration we (ulong DEFAULT_WATER_TIME)) millis.
Proof.
  intros Hq Hz H Hopened. unfold waterPlantTask_receive_with_skip in H.
  rewrite Hq in H.
  destruct (skipValve !! Z.to_nat (plant_position (normalize we))) as [[|]|];
    simpl in H; [| |discriminate].
  - injection H as <- <-. now contradiction Hopened.
  - injection H as <- <-. simpl. unfold normalize. now rewrite Hz.
Qed.

(** *** stopAllWatering *)

(** C4 (as the firmware has it): stopAllWatering leaves the watering queue
    empty, and what the firmware does afterwards does not depend on the events
    that were dropped; until something new is enqueued no valve is opened, at
    most the valve of the event in flight is closed, and the only records that
    can still be published are those of executions already finished and the
    one of the event in flight.  That event is handed to the publisher with
    the time for which its valve was open; its record is made of the position
    and of that time alone. *)
Theorem stop_all_drops_pending_events (d : Device) :
  wateringQueue (stopAllWatering d) = [] /\
  (forall q inputs,
     run (stopAllWatering (set_wateringQueue q d)) inputs =
     run (stopAllWatering d) inputs) /\
  (forall inputs d',
     forallb (fun i => negb (may_enqueue i)) inputs = true ->
     run (stopAllWatering d) inputs = Some d' ->
     wateringQueue d' = [] /\
     opened d' = opened d /\
     (closed d' + in_flight d' = closed d + in_flight d)%nat /\
     (length (published d') + unpublished d' + in_flight d' <=
      length (published d) + unpublished d + in_flight d)%nat) /\
  (forall we start millis,
     task d = NotifyWait we start ->
     waterPlantTask millis (stopAllWatering d) =
       Some (set_task (Publishing (set_duration we (ulong (millis - start))))
              (log_gpio (Off (plant_position we))
                (set_notified false (stopAllWatering d))))) /\
  (forall we1 we2,
     plant_position we1 = plant_position we2 -> duration we1 = duration we2 ->
     message we1 = message we2).
Proof.
  split; [reflexivity|]. split; [reflexivity|]. split; [|split].
  - intros inputs d' Hquiet Hrun.
    destruct (quiet_run inputs (stopAllWatering d) d' Hquiet eq_refl Hrun) as [He Ho].
    destruct (run_accounting _ _ _ Hrun) as (A1 & A2 & A3).
    pose proof (is_connected_le_publisher inputs) as Hle.
    unfold opened, closed, unpublished, in_flight in *. simpl in *.
    split; [assumption|]. split; [assumption|]. split; lia.
  - intros we start millis Ht. unfold waterPlantTask. simpl. rewrite Ht.
    reflexivity.
  - intros we1 we2 Hp Hd. unfold message. now rewrite Hp, Hd.
Qed.

(** ** Further properties of the firmware *)

(** *** The queues stay within QUEUE_SIZE *)

Definition queues_bounded (d : Device) : Prop :=
  (length (wateringQueue d) <= QUEUE_SIZE)%nat /\
  (length (waterPublisherQueue d) <= QUEUE_SIZE)%nat.

Lemma xQueueSend_bounded (q q' : list WateringEvent) (we : WateringEvent) :
  xQueueSend q we = Some q' -> (length q' <= QUEUE_SIZE)%nat.
Proof.
  unfold xQueueSend. destruct (length q <? QUEUE_SIZE)%nat eqn:E; [|discriminate].
  intros [= <-]. apply Nat.ltb_lt in E. rewrite length_app. simpl. lia.
Qed.

Lemma waterPlant_bounded (we : WateringEvent) (d d' : Device) :
  queues_bounded d -> waterPlant we d = Some d' -> queues_bounded d'.
Proof.
  intros [Hq Hp] H. unfold waterPlant in H.
  destruct (out_of_range we); [injection H as <-; now split|].
  destruct (xQueueSend (wateringQueue d) we) as [q|] eqn:E; simpl in H; [|discriminate].
  injection H as <-. split; simpl; [|exact Hp]. eapply xQueueSend_bounded; eauto.
Qed.

Lemma step_bounded (d d' : Device) (i : Input) :
  queues_bounded d -> step d i = Some d' -> queues_bounded d'.
Proof.
  intros Hb Hstep. pose proof Hb as [Hq Hp].
  destruct i as [topic doc|we| |millis|millis|connected]; simpl in Hstep.
  - destruct topic; simpl in Hstep.
    + eapply waterPlant_bounded; eauto.
    + injection Hstep as <-. now split.
    + injection Hstep as <-. split; simpl; [lia | exact Hp].
    + now injection Hstep as <-.
    + now injection Hstep as <-.
  - eapply waterPlant_bounded; eauto.
  - injection Hstep as <-. now split.
  - unfold waterIntervalTask in Hstep. destruct (intervalLoop d) as [i|].
    + destruct (i <? NUM_PLANTS).
      * destruct (waterPlant _ d) as [d1|] eqn:E; simpl in Hstep; [|discriminate].
        injection Hstep as <-.
        destruct (waterPlant_bounded _ _ _ Hb E) as [Hq1 Hp1]. now split.
      * injection Hstep as <-. now split.
    + destruct (interval_elapsed _ _); injection Hstep as <-; [now split | exact Hb].
  - unfold waterPlantTask in Hstep. destruct (task d) as [|we start|we].
    + destruct (wateringQueue d) as [|we q] eqn:Eq; injection Hstep as <-;
        [exact Hb|]. split; simpl in *; [lia | exact Hp].
    + destruct (notified d || timed_out we _); [|discriminate].
      injection Hstep as <-. now split.
    + destruct (xQueueSend _ we) as [q|] eqn:E; simpl in Hstep; [|discriminate].
      injection Hstep as <-. split; simpl; [exact Hq|].
      eapply xQueueSend_bounded; eauto.
  - unfold waterPublisherTask in Hstep.
    destruct (waterPublisherQueue d) as [|we q] eqn:Eq; [discriminate|].
    injection Hstep as <-. simpl in Hp. destruct connected; split; simpl; auto; lia.
Qed.

(** X1: from a state whose watering queue and publisher queue hold at most
    QUEUE_SIZE events, as after setup, every state that the firmware reaches
    has both queues within QUEUE_SIZE. *)
Theorem queues_never_exceed_QUEUE_SIZE (inputs : list Input) : forall d d',
  queues_bounded d -> run d inputs = Some d' -> queues_bounded d'.
Proof.
  induction inputs as [|i inputs IH]; intros d d' Hb Hrun; simpl in Hrun.
  - now injection Hrun as <-.
  - destruct (step d i) as [d1|] eqn:E; simpl in Hrun; [|discriminate].
    eapply IH; [|exact Hrun]. eapply step_bounded; eauto.
Qed.

(** X2: waterPlant blocks exactly for an event in range that finds the queue
    full; with room it appends the event to the queue and changes nothing
    else; an event out of range never blocks and leaves the device as it
    is. *)
Theorem waterPlant_blocks_iff_full (we : WateringEvent) (d : Device) :
  (waterPlant we d = None <->
   in_range we /\ (QUEUE_SIZE <= length (wateringQueue d))%nat) /\
  (in_range we -> (length (wateringQueue d) < QUEUE_SIZE)%nat ->
   waterPlant we d = Some (set_wateringQueue (wateringQueue d ++ [we]) d)) /\
  (~ in_range we -> waterPlant we d = Some d).
Proof.
  unfold waterPlant, xQueueSend. split; [|split].
  - destruct (out_of_range we) eqn:E.
    + split; [discriminate|]. intros [Hr _]. apply out_of_range_spec in Hr. congruence.
    + apply out_of_range_spec in E.
      destruct (length (wateringQueue d) <? QUEUE_SIZE)%nat eqn:El; simpl.
      * apply Nat.ltb_lt in El. split; [discriminate | intros [_ H]; lia].
      * apply Nat.ltb_ge in El. split; [now split | reflexivity].
  - intros Hr Hl. apply out_of_range_spec in Hr. rewrite Hr.
    apply Nat.ltb_lt in Hl. now rewrite Hl.
  - intros Hr. destruct (out_of_range we) eqn:E; [reflexivity|].
    apply out_of_range_spec in E. contradiction.
Qed.

(** *** One valve at a time *)

(** The valve that a log of plantOn and plantOff calls leaves open, if the
    log is orderly: plantOn only with every valve closed, plantOff only for
    the valve that is open. *)
Definition actuate (open : option (option Z)) (a : Actuation) : option (option Z) :=
  match open, a with
  | Some None, On p => Some (Some p)
  | Some (Some q), Off p => if q =? p then Some None else None
  | _, _ => None
  end.

Definition open_valve (log : list Actuation) : option (option Z) :=
  fold_left actuate log (Some None).

Definition watering_position (t : TaskState) : option Z :=
  match t with NotifyWait we _ => Some (plant_position we) | _ => None end.

Definition one_valve (d : Device) : Prop :=
  open_valve (gpio d) = Some (watering_position (task d)).

Lemma open_valve_snoc (log : list Actuation) (a : Actuation) :
  open_valve (log ++ [a]) = actuate (open_valve log) a.
Proof. unfold open_valve. now rewrite fold_left_app. Qed.

Lemma waterPlant_frame (we : WateringEvent) (d d' : Device) :
  waterPlant we d = Some d' ->
  gpio d' = gpio d /\ task d' = task d /\ notified d' = notified d /\
  waterPublisherQueue d' = waterPublisherQueue d /\ published d' = published d /\
  previousMillis d' = previousMillis d /\ intervalLoop d' = intervalLoop d.
Proof.
  intros H. destruct (waterPlant_inv _ _ _ H) as [-> | [_ ->]]; now repeat split.
Qed.

Lemma step_one_valve (d d' : Device) (i : Input) :
  one_valve d -> step d i = Some d' -> one_valve d'.
Proof.
  unfold one_valve. intros Hv Hstep.
  destruct i as [topic doc|we| |millis|millis|connected]; simpl in Hstep.
  - destruct topic; simpl in Hstep; try (now injection Hstep as <-).
    destruct (waterPlant_frame _ _ _ Hstep) as (-> & -> & _). exact Hv.
  - destruct (waterPlant_frame _ _ _ Hstep) as (-> & -> & _). exact Hv.
  - now injection Hstep as <-.
  - unfold waterIntervalTask in Hstep. destruct (intervalLoop d) as [i|].
    + destruct (i <? NUM_PLANTS).
      * destruct (waterPlant _ d) as [d1|] eqn:E; simpl in Hstep; [|discriminate].
        injection Hstep as <-. simpl.
        destruct (waterPlant_frame _ _ _ E) as (-> & -> & _). exact Hv.
      * now injection Hstep as <-.
    + destruct (interval_elapsed _ _); now injection Hstep as <-.
  - unfold waterPlantTask in Hstep. destruct (task d) as [|we start|we] eqn:Et.
    + destruct (wateringQueue d) as [|we q]; injection Hstep as <-; simpl.
      * now rewrite Et.
      * rewrite open_valve_snoc, Hv. reflexivity.
    + destruct (notified d || timed_out we _); [|discriminate].
      injection Hstep as <-. simpl. rewrite open_valve_snoc, Hv. simpl.
      now rewrite Z.eqb_refl.
    + destruct (xQueueSend _ we) as [q|]; simpl in Hstep; [|discriminate].
      injection Hstep as <-. simpl. exact Hv.
  - unfold waterPublisherTask in Hstep.
    destruct (waterPublisherQueue d) as [|we q]; [discriminate|].
    injection Hstep as <-. destruct connected; simpl; now rewrite Hv.
Qed.

(** X3: the calls of plantOn and plantOff come in order: a valve is opened only
    when all are closed and the next call closes that very valve; a valve is
    open exactly while waterPlantTask waits on the event of that position. *)
Theorem one_valve_at_a_time (inputs : list Input) : forall d d',
  one_valve d -> run d inputs = Some d' ->
  open_valve (gpio d') = Some (watering_position (task d')).
Proof.
  induction inputs as [|i inputs IH]; intros d d' Hv Hrun; simpl in Hrun.
  - now injection Hrun as <-.
  - destruct (step d i) as [d1|] eqn:E; simpl in Hrun; [|discriminate].
    eapply IH; [|exact Hrun]. eapply step_one_valve; eauto.
Qed.

(** *** First in, first out *)

(** The positions for which plantOn was called, oldest first. *)
Definition started_positions (d : Device) : list Z :=
  omap (fun a => match a with On p => Some p | Off _ => None end) (gpio d).

(** What a call of waterPlant puts on the queue. *)
Definition admitted (we : WateringEvent) : list WateringEvent :=
  if out_of_range we then [] else [we].

(** The events that an input puts on the watering queue of [d]. *)
Definition accepted (d : Device) (i : Input) : list WateringEvent :=
  match i with
  | Incoming waterCommandTopic doc => admitted (deserialize doc)
  | CallWaterPlant we => admitted we
  | RunWaterIntervalTask _ =>
      match intervalLoop d with
      | Some i =>
          if i <? NUM_PLANTS
          then admitted (mkWateringEvent i (ulong DEFAULT_WATER_TIME) "N/A")
          else []
      | None => []
      end
  | _ => []
  end.

Fixpoint arrivals (d : Device) (inputs : list Input) : list WateringEvent :=
  match inputs with
  | [] => []
  | i :: inputs =>
      accepted d i ++
      match step d i with
      | Some d' => arrivals d' inputs
      | None => []
      end
  end.

Definition is_stop_all (i : Input) : bool :=
  match i with Incoming stopAllCommandTopic _ => true | _ => false end.

Definition positions (events : list WateringEvent) : list Z :=
  map plant_position events.

Lemma waterPlant_accepts (we : WateringEvent) (d d' : Device) :
  waterPlant we d = Some d' ->
  gpio d' = gpio d /\ wateringQueue d' = wateringQueue d ++ admitted we.
Proof.
  unfold waterPlant, xQueueSend, admitted. destruct (out_of_range we).
  - intros [= <-]. now rewrite app_nil_r.
  - destruct (length (wateringQueue d) <? QUEUE_SIZE)%nat; simpl; [|discriminate].
    intros [= <-]. now split.
Qed.

Lemma step_fifo (d d' : Device) (i : Input) :
  is_stop_all i = false -> step d i = Some d' ->
  started_positions d' ++ positions (wateringQueue d') =
  started_positions d ++ positions (wateringQueue d) ++ positions (accepted d i).
Proof.
  unfold started_positions, positions. intros Hs Hstep.
  destruct i as [topic doc|we| |millis|millis|connected]; simpl in Hstep.
  - destruct topic; try discriminate Hs; simpl in Hstep;
      try (injection Hstep as <-; simpl; now rewrite app_nil_r).
    destruct (waterPlant_accepts _ _ _ Hstep) as [-> ->]. simpl.
    now rewrite map_app.
  - destruct (waterPlant_accepts _ _ _ Hstep) as [-> ->]. simpl.
    now rewrite map_app.
  - injection Hstep as <-. simpl. now rewrite app_nil_r.
  - unfold waterIntervalTask in Hstep. simpl. destruct (intervalLoop d) as [i|].
    + destruct (i <? NUM_PLANTS).
      * destruct (waterPlant _ d) as [d1|] eqn:E; simpl in Hstep; [|discriminate].
        injection Hstep as <-. simpl.
        destruct (waterPlant_accepts _ _ _ E) as [-> ->]. now rewrite map_app.
      * injection Hstep as <-. simpl. now rewrite app_nil_r.
    + destruct (interval_elapsed _ _); injection Hstep as <-; simpl;
        now rewrite app_nil_r.
  - unfold waterPlantTask in Hstep. simpl. rewrite app_nil_r.
    destruct (task d) as [|we start|we].
    + destruct (wateringQueue d) as [|we q] eqn:Eq; injection Hstep as <-; simpl;
        [now rewrite Eq|].
      rewrite omap_app. simpl. rewrite normalize_position.
      now rewrite <- app_assoc.
    + destruct (notified d || timed_out we _); [|discriminate].
      injection Hstep as <-. simpl. rewrite omap_app. simpl.
      now rewrite app_nil_r.
    + destruct (xQueueSend _ we) as [q|]; simpl in Hstep; [|discriminate].
      now injection Hstep as <-.
  - unfold waterPublisherTask in Hstep. simpl. rewrite app_nil_r.
    destruct (waterPublisherQueue d) as [|we q]; [discriminate|].
    injection Hstep as <-. now destruct connected.
Qed.

(** X4: without a stop_all command the watering queue is first in, first out:
    the positions watered so far, followed by the positions still queued, are
    the positions of the accepted events in their order of arrival. *)
Theorem watering_is_first_in_first_out (inputs : list Input) : forall d d',
  forallb (fun i => negb (is_stop_all i)) inputs = true ->
  run d inputs = Some d' ->
  started_positions d' ++ positions (wateringQueue d') =
  started_positions d ++ positions (wateringQueue d) ++
  positions (arrivals d inputs).
Proof.
  induction inputs as [|i inputs IH]; intros d d' Hs Hrun; simpl in *.
  - injection Hrun as <-. unfold positions. simpl. now rewrite app_nil_r.
  - apply andb_true_iff in Hs as [Hi Hs]. apply negb_true_iff in Hi.
    destruct (step d i) as [d1|] eqn:E; simpl in Hrun; [|discriminate].
    rewrite (IH _ _ Hs Hrun), app_assoc, (step_fifo _ _ _ Hi E).
    unfold positions. rewrite map_app. now rewrite <- !app_assoc.
Qed.

(** *** Stopping *)

(** X5: a notification that arrived while no event was being executed is
    cleared when the next event is taken from the queue: the valve is opened
    for it, and the wait does not return before its time-out unless the task
    is notified again. *)
Theorem stale_notification_does_not_cut_next_event
    (d : Device) (we : WateringEvent) (q : list WateringEvent) (start millis : Z) :
  task d = Receiving ->
  wateringQueue d = we :: q ->
  timed_out (normalize we) (ulong (millis - start)) = false ->
  exists d1,
    waterPlantTask start (stopWatering d) = Some d1 /\
    task d1 = NotifyWait (normalize we) start /\
    gpio d1 = gpio d ++ [On (plant_position we)] /\
    notified d1 = false /\
    waterPlantTask millis d1 = None.
Proof.
  intros Ht Hq Hto. eexists. split.
  - unfold waterPlantTask. simpl. rewrite Ht, Hq. reflexivity.
  - split; [reflexivity|]. split; [simpl; now rewrite normalize_position|].
    split; [reflexivity|]. unfold waterPlantTask. simpl. now rewrite Hto.
Qed.

(** X6: stopWatering ends the event in flight and keeps the queue: the next
    step of waterPlantTask closes the valve whatever time has passed, and
    with room in the publisher queue the two steps after it hand the event
    over and open the valve of the next queued event. *)
Theorem stopWatering_moves_on_to_next_event
    (d : Device) (we next : WateringEvent) (q : list WateringEvent)
    (start m1 m2 m3 : Z) :
  task d = NotifyWait we start ->
  wateringQueue d = next :: q ->
  (length (waterPublisherQueue d) < QUEUE_SIZE)%nat ->
  exists d',
    run (stopWatering d)
        [RunWaterPlantTask m1; RunWaterPlantTask m2; RunWaterPlantTask m3] = Some d' /\
    gpio d' = gpio d ++ [Off (plant_position we); On (plant_position next)] /\
    task d' = NotifyWait (normalize next) m3 /\
    wateringQueue d' = q /\
    waterPublisherQueue d' =
      waterPublisherQueue d ++ [set_duration we (ulong (m1 - start))].
Proof.
  intros Ht Hq Hroom. apply Nat.ltb_lt in Hroom.
  set (d1 := set_task (Publishing (set_duration we (ulong (m1 - start))))
               (log_gpio (Off (plant_position we))
                  (set_notified false (stopWatering d)))).
  set (d2 := set_task Receiving
               (set_waterPublisherQueue
                  (waterPublisherQueue d ++ [set_duration we (ulong (m1 - start))]) d1)).
  assert (waterPlantTask m1 (stopWatering d) = Some d1) as S1.
  { unfold waterPlantTask. change (task (stopWatering d)) with (task d).
    rewrite Ht. reflexivity. }
  assert (waterPlantTask m2 d1 = Some d2) as S2.
  { unfold waterPlantTask, xQueueSend. cbn [task d1 set_task].
    change (waterPublisherQueue d1) with (waterPublisherQueue d).
    rewrite Hroom. reflexivity. }
  assert (waterPlantTask m3 d2 =
          Some (set_task (NotifyWait (normalize next) m3)
                  (log_gpio (On (plant_position (normalize next)))
                     (set_notified false (set_wateringQueue q d2))))) as S3.
  { unfold waterPlantTask. cbn [task d2 set_task].
    change (wateringQueue d2) with (wateringQueue d). rewrite Hq. reflexivity. }
  eexists. split.
  - cbn [run step]. rewrite S1. cbn [mbind option_bind]. rewrite S2.
    cbn [mbind option_bind]. rewrite S3. reflexivity.
  - cbn. rewrite normalize_position, <- app_assoc. now repeat split.
Qed.

(** *** One firing of the interval *)

Definition default_event (i : Z) : WateringEvent :=
  mkWateringEvent i (ulong DEFAULT_WATER_TIME) "N/A".

Lemma run_cons (d : Device) (i : Input) (inputs : list Input) (d1 : Device) :
  step d i = Some d1 -> run d (i :: inputs) = run d1 inputs.
Proof. intros H. simpl. now rewrite H. Qed.

Lemma interval_loop_send (d : Device) (i millis : Z) :
  intervalLoop d = Some i -> 0 <= i < NUM_PLANTS ->
  (length (wateringQueue d) < QUEUE_SIZE)%nat ->
  waterIntervalTask millis d =
  Some (set_intervalLoop (Some (i + 1))
          (set_wateringQueue (wateringQueue d ++ [default_event i]) d)).
Proof.
  intros Hloop Hi Hroom. unfold waterIntervalTask. rewrite Hloop.
  assert ((i <? NUM_PLANTS) = true) as -> by (apply Z.ltb_lt; lia).
  unfold waterPlant, out_of_range, xQueueSend. cbn [plant_position].
  assert (((NUM_PLANTS <=? i) || (i <? 0)) = false) as ->.
  { apply orb_false_iff. split; [apply Z.leb_gt | apply Z.ltb_ge]; lia. }
  apply Nat.ltb_lt in Hroom. rewrite Hroom. reflexivity.
Qed.

Lemma interval_loop_from (n : nat) : forall (i : Z) (d : Device) (millis : Z),
  0 <= i -> i + Z.of_nat n = NUM_PLANTS ->
  intervalLoop d = Some i ->
  (length (wateringQueue d) + n <= QUEUE_SIZE)%nat ->
  run d (replicate (S n) (RunWaterIntervalTask millis)) =
  Some (set_intervalLoop None
          (set_wateringQueue
             (wateringQueue d ++ map default_event (seqZ i (Z.of_nat n))) d)).
Proof.
  induction n as [|n IH]; intros i d millis Hi Hn Hloop Hroom.
  - simpl. unfold waterIntervalTask. rewrite Hloop.
    assert ((i <? NUM_PLANTS) = false) as -> by (apply Z.ltb_ge; lia).
    simpl. rewrite app_nil_r. destruct d; reflexivity.
  - change (replicate (S (S n)) (RunWaterIntervalTask millis))
      with (RunWaterIntervalTask millis :: replicate (S n) (RunWaterIntervalTask millis)).
    assert (0 <= i < NUM_PLANTS) as Hin by lia.
    assert (length (wateringQueue d) < QUEUE_SIZE)%nat as Hlt by lia.
    pose proof (interval_loop_send d i millis Hloop Hin Hlt) as Hsend.
    rewrite (run_cons d (RunWaterIntervalTask millis) _ _ Hsend).
    rewrite (IH (i + 1)); [| lia | lia | reflexivity | simpl; rewrite length_app; simpl; lia].
    simpl. rewrite <- app_assoc. simpl.
    replace (Z.of_nat (S n)) with (Z.succ (Z.of_nat n)) by lia.
    rewrite (seqZ_cons i) by lia.
    replace (Z.succ i) with (i + 1) by lia.
    replace (Z.pred (Z.succ (Z.of_nat n))) with (Z.of_nat n) by lia.
    reflexivity.
Qed.

(** X7: when the interval has elapsed and the queue has room, one firing of
    waterIntervalTask takes the reading of millis() as the new reference and
    queues one event of DEFAULT_WATER_TIME for each plant, in the order
    0, 1, ..., NUM_PLANTS - 1, then leaves its for loop. *)
Theorem interval_firing_queues_every_plant (d : Device) (millis : Z) :
  intervalLoop d = None ->
  interval_elapsed (previousMillis d) millis = true ->
  0 <= NUM_PLANTS ->
  (length (wateringQueue d) + Z.to_nat NUM_PLANTS <= QUEUE_SIZE)%nat ->
  run d (replicate (S (S (Z.to_nat NUM_PLANTS))) (RunWaterIntervalTask millis)) =
  Some (set_previousMillis millis
          (set_wateringQueue
             (wateringQueue d ++ map default_event (seqZ 0 NUM_PLANTS)) d)).
Proof.
  intros Hloop Hdue Hn Hroom.
  change (replicate (S (S (Z.to_nat NUM_PLANTS))) (RunWaterIntervalTask millis))
    with (RunWaterIntervalTask millis ::
          replicate (S (Z.to_nat NUM_PLANTS)) (RunWaterIntervalTask millis)).
  destruct (waterIntervalTask_anchor d millis Hloop Hdue) as (d1 & Hstep & Hprev & Hl1).
  rewrite (run_cons d (RunWaterIntervalTask millis) _ d1 Hstep).
  assert (d1 = set_intervalLoop (Some 0) (set_previousMillis millis d)) as Hd1.
  { unfold waterIntervalTask in Hstep. rewrite Hloop, Hdue in Hstep. congruence. }
  rewrite (interval_loop_from (Z.to_nat NUM_PLANTS) 0 d1 millis);
    [| lia | lia | exact Hl1 | now rewrite Hd1].
  rewrite Z2Nat.id by lia. rewrite Hd1.
  unfold set_intervalLoop, set_previousMillis, set_wateringQueue. cbn.
  now rewrite Hloop.
Qed.

(** *** The overflow of millis() *)

Lemma ulong_difference (t e : Z) :
  0 <= e <= ULONG_MAX -> ulong (ulong (t + e) - ulong t) = e.
Proof.
  intros He. unfold ulong, ULONG_MAX in *.
  rewrite <- Zminus_mod. replace (t + e - t) with e by lia.
  apply Z.mod_small. lia.
Qed.

(** X25: the overflow of millis() does no harm: when the clock has advanced by
    e, below 2^32, since the valve was opened, an interrupted execution is
    recorded with exactly e, and the interval test compares exactly e with
    INTERVAL, also when millis() has wrapped around in between. *)
Theorem millis_overflow_is_harmless
    (d : Device) (we : WateringEvent) (t e : Z) :
  0 <= e <= ULONG_MAX ->
  task d = NotifyWait we (ulong t) ->
  notified d = true ->
  waterPlantTask (ulong (t + e)) d =
    Some (set_task (Publishing (set_duration we e))
            (log_gpio (Off (plant_position we)) (set_notified false d))) /\
  interval_elapsed (ulong t) (ulong (t + e)) = (INTERVAL <=? e).
Proof.
  intros He Ht Hn. split.
  - unfold waterPlantTask. rewrite Ht, Hn. cbn [orb].
    now rewrite ulong_difference.
  - unfold interval_elapsed. now rewrite ulong_difference.
Qed.

End Firmware.

(** The values that the single-file firmware defines itself (NUM_VALVES 3,
    DEFAULT_WATER_TIME 15000, INTERVAL 86400000, QUEUE_SIZE 10), with the tick
    of one millisecond of the ESP32 Arduino core. *)
Module Config.
Definition NUM_PLANTS : Z := 3.
Definition DEFAULT_WATER_TIME : Z := 15000.
Definition INTERVAL : Z := 86400000.
Definition QUEUE_SIZE : nat := 10.
Definition portTICK_PERIOD_MS : Z := 1.
End Config.

Abbreviation run_configured :=
  (run Config.NUM_PLANTS Config.DEFAULT_WATER_TIME Config.INTERVAL
       Config.QUEUE_SIZE Config.portTICK_PERIOD_MS).

Abbreviation power_on := (setup Config.INTERVAL).

(** A water command [{"plant_position": p, "duration": ms, "id": "a"}]. *)
Definition water_command (p ms : Z) : Input :=
  Incoming waterCommandTopic (mkJsonDoc (Some p) (Some ms) (Some "a"%string)).

Definition stop_all_command : Input :=
  Incoming stopAllCommandTopic (mkJsonDoc None None None).

(** C1 as stated fails: the task fires at start-up (millis 0); if its next
    iteration comes 7 ms after the interval has passed, it fires then, and the
    two instants are INTERVAL + 7 apart. *)
Lemma waterIntervalTask_drifts :
  fire_instants Config.INTERVAL (ulong (- Config.INTERVAL))
    [0; Config.INTERVAL + 7] = [0; Config.INTERVAL + 7] /\
  (Config.INTERVAL + 7) - 0 <> Config.INTERVAL.
Proof. split; [vm_compute; reflexivity | vm_compute; discriminate]. Qed.

Lemma waterIntervalTask_fires_at_least_interval_apart_witness :
  Config.INTERVAL <= ulong (Config.INTERVAL + 7 - 0).
Proof.
  apply (waterIntervalTask_fires_at_least_interval_apart Config.INTERVAL
           [0; Config.INTERVAL + 7] (ulong (- Config.INTERVAL)) 0%nat
           0 (Config.INTERVAL + 7));
    reflexivity.
Defined.

(** The interval task queues the three plants; a command without position,
    one for position 3 and one for position -1 change nothing. *)
Definition interval_then_bad_commands : list Input :=
  [RunWaterIntervalTask 0; RunWaterIntervalTask 0; RunWaterIntervalTask 0;
   RunWaterIntervalTask 0; RunWaterIntervalTask 0;
   Incoming waterCommandTopic (mkJsonDoc None (Some 5) None);
   water_command 3 1; water_command (-1) 1; RunWaterPlantTask 9].

Lemma watering_queue_positions_in_range_witness :
  exists d,
    run_configured power_on interval_then_bad_commands = Some d /\
    wateringQueue d = [mkWateringEvent 1 15000 "N/A"; mkWateringEvent 2 15000 "N/A"] /\
    Forall (in_range Config.NUM_PLANTS) (wateringQueue d) /\
    task_in_range Config.NUM_PLANTS (task d) /\
    Forall (fun a => 0 <= actuated a < Config.NUM_PLANTS) (gpio d).
Proof.
  eexists. split; [vm_compute; reflexivity|]. split; [reflexivity|].
  eapply (watering_queue_positions_in_range Config.NUM_PLANTS
            Config.DEFAULT_WATER_TIME Config.INTERVAL Config.QUEUE_SIZE
            Config.portTICK_PERIOD_MS interval_then_bad_commands).
  vm_compute; reflexivity.
Defined.



(** An event of duration 0 is recorded with the default duration. *)
Example zero_duration_record :
  exists d,
    run_configured power_on
      [water_command 0 0; RunWaterPlantTask 0; RunWaterPlantTask 15000;
       RunWaterPlantTask 15000; RunWaterPublisherTask true] = Some d /\
    published d = ["water,plant=0 millis=15000"%string].
Proof. eexists. split; [vm_compute; reflexivity|]. reflexivity. Qed.


Definition idle_with_zero_duration_event : Device :=
  set_wateringQueue [mkWateringEvent 2 0 "N/A"] power_on.

Lemma zero_duration_uses_default_witness :
  waterPlantTask Config.DEFAULT_WATER_TIME Config.QUEUE_SIZE
    Config.portTICK_PERIOD_MS 7 idle_with_zero_duration_event =
  Some (set_task (NotifyWait (mkWateringEvent 2 15000 "N/A") 7)
         (log_gpio (On 2)
           (set_notified false (set_wateringQueue [] idle_with_zero_duration_event)))) /\
  0 < xTicksToWait Config.portTICK_PERIOD_MS (mkWateringEvent 2 15000 "N/A").
Proof.
  destruct (zero_duration_uses_default Config.DEFAULT_WATER_TIME Config.QUEUE_SIZE
              Config.portTICK_PERIOD_MS idle_with_zero_duration_event
              (mkWateringEvent 2 0 "N/A") [] 7) as (H1 & H2 & _);
    try reflexivity.
  - unfold Config.portTICK_PERIOD_MS, Config.DEFAULT_WATER_TIME. lia.
  - split; [exact H1 | exact H2].
Defined.

(** C4 as stated fails: the record of an event interrupted by stop_all after
    500 ms is the record of an event that ran its 500 ms to the end; it holds
    the position and the milliseconds and no outcome. *)
Lemma stop_all_record_has_no_outcome :
  (exists d,
     run_configured power_on
       [water_command 0 1000; water_command 1 2000; RunWaterPlantTask 0;
        stop_all_command; RunWaterPlantTask 500; RunWaterPlantTask 505;
        RunWaterPublisherTask true; RunWaterPlantTask 510] = Some d /\
     gpio d = [On 0; Off 0] /\
     published d = ["water,plant=0 millis=500"%string]) /\
  (exists d,
     run_configured power_on
       [water_command 0 500; RunWaterPlantTask 0; RunWaterPlantTask 500;
        RunWaterPlantTask 505; RunWaterPublisherTask true] = Some d /\
     gpio d = [On 0; Off 0] /\
     published d = ["water,plant=0 millis=500"%string]).
Proof.
  split; eexists; (split; [vm_compute; reflexivity|]); split; reflexivity.
Qed.

(** ** The further properties on the configured firmware *)

Lemma queues_never_exceed_QUEUE_SIZE_witness :
  exists d,
    run_configured power_on interval_then_bad_commands = Some d /\
    queues_bounded Config.QUEUE_SIZE d.
Proof.
  eexists. split; [vm_compute; reflexivity|].
  eapply (queues_never_exceed_QUEUE_SIZE Config.NUM_PLANTS Config.DEFAULT_WATER_TIME
            Config.INTERVAL Config.QUEUE_SIZE Config.portTICK_PERIOD_MS
            interval_then_bad_commands power_on).
  - split; simpl; unfold Config.QUEUE_SIZE; lia.
  - vm_compute; reflexivity.
Defined.

Lemma one_valve_at_a_time_witness :
  exists d,
    run_configured power_on interval_then_bad_commands = Some d /\
    open_valve (gpio d) = Some (Some 0).
Proof.
  eexists. split; [vm_compute; reflexivity|].
  match goal with
  | |- open_valve (gpio ?d) = _ =>
      change (Some (Some 0)) with (Some (watering_position (task d)))
  end.
  eapply (one_valve_at_a_time Config.NUM_PLANTS Config.DEFAULT_WATER_TIME
            Config.INTERVAL Config.QUEUE_SIZE Config.portTICK_PERIOD_MS
            interval_then_bad_commands power_on).
  - reflexivity.
  - vm_compute; reflexivity.
Defined.

(** Three commands, two of them started. *)
Definition three_commands : list Input :=
  [water_command 2 100; water_command 0 200; RunWaterPlantTask 0;
   water_command 1 300; CallStopWatering; RunWaterPlantTask 50;
   RunWaterPlantTask 55; RunWaterPlantTask 60].

Lemma watering_is_first_in_first_out_witness :
  exists d,
    run_configured power_on three_commands = Some d /\
    started_positions d ++ positions (wateringQueue d) = [2; 0; 1].
Proof.
  eexists. split; [vm_compute; reflexivity|].
  match goal with
  | |- started_positions ?d ++ _ = _ =>
      assert (run_configured power_on three_commands = Some d) as Hrun
        by (vm_compute; reflexivity)
  end.
  rewrite (watering_is_first_in_first_out Config.NUM_PLANTS
             Config.DEFAULT_WATER_TIME Config.INTERVAL Config.QUEUE_SIZE
             Config.portTICK_PERIOD_MS three_commands power_on _ eq_refl Hrun).
  vm_compute. reflexivity.
Defined.

Definition idle_with_one_event : Device :=
  set_wateringQueue [mkWateringEvent 1 1000 "a"] power_on.

Lemma stale_notification_does_not_cut_next_event_witness :
  exists d1,
    waterPlantTask Config.DEFAULT_WATER_TIME Config.QUEUE_SIZE
      Config.portTICK_PERIOD_MS 10 (stopWatering idle_with_one_event) = Some d1 /\
    notified d1 = false /\
    waterPlantTask Config.DEFAULT_WATER_TIME Config.QUEUE_SIZE
      Config.portTICK_PERIOD_MS 1009 d1 = None.
Proof.
  destruct (stale_notification_does_not_cut_next_event Config.DEFAULT_WATER_TIME
              Config.QUEUE_SIZE Config.portTICK_PERIOD_MS idle_with_one_event
              (mkWateringEvent 1 1000 "a") [] 10 1009)
    as (d1 & H1 & _ & _ & H4 & H5); try reflexivity.
  exists d1. split; [exact H1|]. split; [exact H4 | exact H5].
Defined.

Definition watering_with_one_queued : Device :=
  set_task (NotifyWait (mkWateringEvent 0 1000 "a") 0)
    (set_wateringQueue [mkWateringEvent 2 500 "b"] power_on).

Lemma stopWatering_moves_on_to_next_event_witness :
  exists d',
    run_configured (stopWatering watering_with_one_queued)
      [RunWaterPlantTask 400; RunWaterPlantTask 405; RunWaterPlantTask 410] = Some d' /\
    gpio d' = [Off 0; On 2] /\
    waterPublisherQueue d' = [mkWateringEvent 0 400 "a"].
Proof.
  destruct (stopWatering_moves_on_to_next_event Config.NUM_PLANTS
              Config.DEFAULT_WATER_TIME Config.INTERVAL Config.QUEUE_SIZE
              Config.portTICK_PERIOD_MS watering_with_one_queued
              (mkWateringEvent 0 1000 "a") (mkWateringEvent 2 500 "b") []
              0 400 405 410)
    as (d' & H1 & H2 & _ & _ & H5); try reflexivity.
  - simpl. unfold Config.QUEUE_SIZE. lia.
  - exists d'. split; [exact H1|]. split; [exact H2 | exact H5].
Defined.

Lemma interval_firing_queues_every_plant_witness :
  run_configured power_on (replicate 5 (RunWaterIntervalTask 0)) =
  Some (set_previousMillis 0
          (set_wateringQueue
             [mkWateringEvent 0 15000 "N/A"; mkWateringEvent 1 15000 "N/A";
              mkWateringEvent 2 15000 "N/A"] power_on)).
Proof.
  apply (interval_firing_queues_every_plant Config.NUM_PLANTS
           Config.DEFAULT_WATER_TIME Config.INTERVAL Config.QUEUE_SIZE
           Config.portTICK_PERIOD_MS power_on 0); try reflexivity.
  - unfold Config.NUM_PLANTS. lia.
  - change (0 + 3 <= 10)%nat. lia.
Defined.

(** The valve was opened 296 ms before the clock wrapped and is closed 1000 ms
    later. *)
Lemma millis_overflow_is_harmless_witness :
  waterPlantTask Config.DEFAULT_WATER_TIME Config.QUEUE_SIZE Config.portTICK_PERIOD_MS
    704
    (set_notified true
       (set_task (NotifyWait (mkWateringEvent 1 5000 "a") 4294967000) power_on)) =
    Some (set_task (Publishing (mkWateringEvent 1 1000 "a"))
            (log_gpio (Off 1)
               (set_notified false
                  (set_notified true
                     (set_task (NotifyWait (mkWateringEvent 1 5000 "a") 4294967000)
                        power_on))))) /\
  interval_elapsed Config.INTERVAL 4294967000 704 = false.
Proof.
  apply (millis_overflow_is_harmless Config.DEFAULT_WATER_TIME Config.INTERVAL
           Config.QUEUE_SIZE Config.portTICK_PERIOD_MS
           (set_notified true
              (set_task (NotifyWait (mkWateringEvent 1 5000 "a") 4294967000) power_on))
           (mkWateringEvent 1 5000 "a") 4294967000 1000).
  - unfold ULONG_MAX. lia.
  - reflexivity.
  - reflexivity.
Defined.

(* --------------------------------------------------------------------- *)
(** ** The grow light *)
(* --------------------------------------------------------------------- *)
Module Light.

Record State := mkState {
  light_state : Z;                (* int *)
  pin : list Z;                   (* gpio_set_level(LIGHT_PIN, ...) calls *)
  sending : option Z;             (* changeLight blocked in xQueueSend *)
  lightPublisherQueue : list Z;
  published : list string
}.

Inductive Input :=
| ChangeLight (state : string)    (* a message on lightCommandTopic *)
| ResumeSend                      (* the blocked xQueueSend gets its turn *)
| RunLightPublisherTask (connected : bool).

(** [tolower] and [strcasecmp(a, b) == 0] in the C locale. *)
Definition tolower (c : ascii) : ascii :=
  let n := nat_of_ascii c in
  if (65 <=? n)%nat && (n <=? 90)%nat then ascii_of_nat (n + 32) else c.

Fixpoint lower (s : string) : string :=
  match s with
  | EmptyString => EmptyString
  | String c s => String (tolower c) (lower s)
  end.

Definition strcasecmp_is_0 (a b : string) : bool := String.eqb (lower a) (lower b).

(** What [changeLight] assigns to light_state. *)
Definition next_state (state : string) (current : Z) : Z :=
  if (String.length state =? 0)%nat then (if current =? 0 then 1 else 0)
  else if strcasecmp_is_0 state "on" then 1
  else if strcasecmp_is_0 state "off" then 0
  else current.

Section LightTasks.

Variable QUEUE_SIZE : nat.
Variable GARDEN_NAME : string.

Definition setup : State := mkState 0 [] None [] [].

(** [changeLight]: the state, the pin, then the send to the publisher, which
    blocks while the queue is full. *)
Definition changeLight (state : string) (l : State) : option State :=
  match sending l with
  | Some _ => None
  | None =>
      let s := next_state state (light_state l) in
      if (length (lightPublisherQueue l) <? QUEUE_SIZE)%nat
      then Some (mkState s (pin l ++ [s]) None (lightPublisherQueue l ++ [s])
                         (published l))
      else Some (mkState s (pin l ++ [s]) (Some s) (lightPublisherQueue l)
                         (published l))
  end.

Definition resumeSend (l : State) : option State :=
  match sending l with
  | Some s =>
      if (length (lightPublisherQueue l) <? QUEUE_SIZE)%nat
      then Some (mkState (light_state l) (pin l) None (lightPublisherQueue l ++ [s])
                         (published l))
      else None
  | None => None
  end.

(** [sprintf(message, "light,garden=\"%s\" state=%d", GARDEN_NAME, state)] *)
Definition message (state : Z) : string :=
  ("light,garden=" +:+ String "034"%char GARDEN_NAME +:+
   String "034"%char " state=" +:+ decimal state)%string.

Definition lightPublisherTask (connected : bool) (l : State) : option State :=
  match lightPublisherQueue l with
  | [] => None
  | s :: q =>
      Some (mkState (light_state l) (pin l) (sending l) q
                    (if connected then published l ++ [message s] else published l))
  end.

Definition step (l : State) (i : Input) : option State :=
  match i with
  | ChangeLight state => changeLight state l
  | ResumeSend => resumeSend l
  | RunLightPublisherTask connected => lightPublisherTask connected l
  end.

Fixpoint run (l : State) (inputs : list Input) : option State :=
  match inputs with
  | [] => Some l
  | i :: inputs => l' ← step l i; run l' inputs
  end.

Definition binary (v : Z) : Prop := v = 0 \/ v = 1.

Definition light_ok (l : State) : Prop :=
  binary (light_state l) /\
  Forall binary (pin l) /\
  Forall binary (lightPublisherQueue l) /\
  (forall s, sending l = Some s -> binary s).

Lemma next_state_binary (state : string) (current : Z) :
  binary current -> binary (next_state state current).
Proof.
  intros Hc. unfold next_state.
  destruct (String.length state =? 0)%nat.
  - destruct (current =? 0); [now right | now left].
  - destruct (strcasecmp_is_0 state "on"); [now right|].
    destruct (strcasecmp_is_0 state "off"); [now left | exact Hc].
Qed.

Lemma step_light_ok (l l' : State) (i : Input) :
  light_ok l -> step l i = Some l' -> light_ok l'.
Proof.
  intros (Hs & Hp & Hq & Hsend) Hstep. destruct i as [state| |connected]; simpl in Hstep.
  - unfold changeLight in Hstep. destruct (sending l); [discriminate|].
    pose proof (next_state_binary state _ Hs) as Hn.
    destruct (length (lightPublisherQueue l) <? QUEUE_SIZE)%nat;
      injection Hstep as <-; (split; [exact Hn|]); simpl;
      (split; [apply Forall_app_2; [exact Hp | now constructor]|]).
    + split; [apply Forall_app_2; [exact Hq | now constructor] | discriminate].
    + split; [exact Hq | now intros s [= <-]].
  - unfold resumeSend in Hstep. destruct (sending l) as [s|] eqn:E; [|discriminate].
    destruct (length (lightPublisherQueue l) <? QUEUE_SIZE)%nat; [|discriminate].
    injection Hstep as <-. split; [exact Hs|]. split; [exact Hp|]. simpl.
    split; [|discriminate]. apply Forall_app_2; [exact Hq|].
    constructor; [now apply Hsend | constructor].
  - unfold lightPublisherTask in Hstep.
    destruct (lightPublisherQueue l) as [|s q] eqn:E; [discriminate|].
    injection Hstep as <-. split; [exact Hs|]. split; [exact Hp|]. simpl.
    split; [now inversion Hq | exact Hsend].
Qed.

(** X8: light_state stays 0 or 1, and so does every level written to the light
    pin and every state handed to the publisher, whatever the state strings of
    the commands are, from a state in which they are, as after setup. *)
Theorem light_state_is_0_or_1 (inputs : list Input) : forall l l',
  light_ok l -> run l inputs = Some l' ->
  binary (light_state l') /\ Forall binary (pin l') /\
  Forall binary (lightPublisherQueue l').
Proof.
  induction inputs as [|i inputs IH]; intros l l' Hok Hrun; simpl in Hrun.
  - injection Hrun as <-. destruct Hok as (H1 & H2 & H3 & _). now repeat split.
  - destruct (step l i) as [l1|] eqn:E; simpl in Hrun; [|discriminate].
    eapply IH; [|exact Hrun]. eapply step_light_ok; eauto.
Qed.

(** X9: two commands with an empty state bring the light back to where it was:
    the pin is driven to the other level and back, and both levels are handed
    to the publisher; a state that is neither empty nor on nor off in any
    capitalisation leaves light_state alone, and still the pin is driven and
    the state handed to the publisher. *)
Theorem toggle_twice_restores_light (l : State) (state : string) :
  binary (light_state l) ->
  sending l = None ->
  (length (lightPublisherQueue l) + 2 <= QUEUE_SIZE)%nat ->
  run l [ChangeLight ""; ChangeLight ""] =
    Some (mkState (light_state l)
            (pin l ++ [1 - light_state l; light_state l]) None
            (lightPublisherQueue l ++ [1 - light_state l; light_state l])
            (published l)) /\
  (String.length state <> 0%nat ->
   strcasecmp_is_0 state "on" = false -> strcasecmp_is_0 state "off" = false ->
   changeLight state l =
     Some (mkState (light_state l) (pin l ++ [light_state l]) None
             (lightPublisherQueue l ++ [light_state l]) (published l))).
Proof.
  intros Hs Hsend Hroom.
  assert ((length (lightPublisherQueue l) <? QUEUE_SIZE)%nat = true) as Hr1
    by (apply Nat.ltb_lt; lia).
  split.
  - assert ((length (lightPublisherQueue l ++ [(1 - light_state l)%Z]) <? QUEUE_SIZE)%nat
            = true) as Hr2
      by (apply Nat.ltb_lt; rewrite length_app; simpl; lia).
    assert (next_state "" (light_state l) = 1 - light_state l) as Hn1
      by (destruct Hs as [-> | ->]; reflexivity).
    assert (next_state "" (1 - light_state l) = light_state l) as Hn2
      by (destruct Hs as [-> | ->]; reflexivity).
    set (l1 := mkState (1 - light_state l) (pin l ++ [1 - light_state l]) None
                 (lightPublisherQueue l ++ [1 - light_state l]) (published l)).
    assert (changeLight "" l = Some l1) as S1
      by (unfold changeLight; now rewrite Hsend, Hr1, Hn1).
    assert (changeLight "" l1 =
            Some (mkState (light_state l)
                    ((pin l ++ [1 - light_state l]) ++ [light_state l]) None
                    ((lightPublisherQueue l ++ [1 - light_state l]) ++ [light_state l])
                    (published l))) as S2.
    { unfold changeLight, l1.
      cbn [sending lightPublisherQueue light_state pin published].
      now rewrite Hr2, Hn2. }
    change (run l [ChangeLight ""; ChangeLight ""])
      with (l' ← changeLight "" l; l'' ← changeLight "" l'; Some l'').
    rewrite S1. cbn [mbind option_bind]. rewrite S2. cbn [mbind option_bind].
    now rewrite <- !app_assoc.
  - intros Hlen Hon Hoff. unfold changeLight. rewrite Hsend, Hr1.
    unfold next_state. rewrite Hon, Hoff.
    destruct (String.length state =? 0)%nat eqn:E; [|reflexivity].
    apply Nat.eqb_eq in E. contradiction.
Qed.

End LightTasks.

Lemma light_state_is_0_or_1_witness :
  exists l,
    run 10 "garden" setup
      [ChangeLight "ON"; ChangeLight ""; ChangeLight "dim"; RunLightPublisherTask true]
      = Some l /\
    light_state l = 0 /\ pin l = [1; 0; 0] /\
    binary (light_state l).
Proof.
  eexists. split; [vm_compute; reflexivity|]. split; [reflexivity|].
  split; [reflexivity|].
  eapply (light_state_is_0_or_1 10 "garden"
            [ChangeLight "ON"; ChangeLight ""; ChangeLight "dim";
             RunLightPublisherTask true] setup).
  - split; [now left|]. split; [constructor|]. split; [constructor | discriminate].
  - vm_compute; reflexivity.
Defined.

Lemma toggle_twice_restores_light_witness :
  run 10 "garden" setup [ChangeLight ""; ChangeLight ""] =
  Some (mkState 0 [1; 0] None [1; 0] []).
Proof.
  apply (toggle_twice_restores_light 10 "garden" setup "dim").
  - now left.
  - reflexivity.
  - simpl. lia.
Defined.

End Light.

End Controller.

(* ===================================================================== *)
(** * The single-file firmware: buttons, skip command *)
(* ===================================================================== *)
Module SingleFile.

Import Controller.

Definition HIGH : Z := 1.
Definition LOW : Z := 0.

Record Buttons := mkButtons {
  lastDebounceTime : Z;           (* unsigned long *)
  buttonStates : list Z;          (* int buttonStates[NUM_VALVES] *)
  lastButtonStates : list Z;      (* int lastButtonStates[NUM_VALVES] *)
  lastStopDebounceTime : Z;       (* unsigned long *)
  stopButtonState : Z;
  lastStopButtonState : Z
}.

(** What a button makes the firmware call: [waterPlant(valveID,
    DEFAULT_WATER_TIME)] or [stopWatering()]. *)
Inductive Call :=
| CallWaterPlant (valveID : Z)
| CallStopWatering.

(** One call of [readButton] or [readStopButton], with the level that
    [gpio_get_level] returns and the values of the two calls of [millis()]. *)
Inductive Sample :=
| ReadButton (valveID reading millis1 millis2 : Z)
| ReadStopButton (reading millis1 millis2 : Z).

Inductive Topic :=
| waterCommandTopic
| stopCommandTopic
| stopAllCommandTopic
| skipCommandTopic
| unknownTopic.

(** The members of the JSON document; [doc["valve_id"]] and
    [doc["water_time"]] read 0 for a missing member. *)
Record JsonDoc := mkJsonDoc {
  doc_valve_id : option Z;
  doc_water_time : option Z
}.

Section Firmware.

Variable NUM_VALVES : Z.
Variable DEFAULT_WATER_TIME : Z.
Variable DEBOUNCE_DELAY : Z.
Variable QUEUE_SIZE : nat.

(** [readButton]; the flag tells whether [waterPlant] is called, [None] is an
    access outside [buttonStates] or [lastButtonStates]. *)
Definition readButton (valveID reading millis1 millis2 : Z) (b : Buttons)
  : option (Buttons * bool) :=
  if (NUM_VALVES <=? valveID) || (valveID <? 0) then Some (b, false)
  else
    let i := Z.to_nat valveID in
    last ← lastButtonStates b !! i;
    state ← buttonStates b !! i;
    let lastDebounceTime' :=
      if negb (reading =? last) then ulong millis1 else lastDebounceTime b in
    let changed :=
      (DEBOUNCE_DELAY <? ulong (millis2 - lastDebounceTime')) &&
      negb (reading =? state) in
    Some (mkButtons lastDebounceTime'
            (if changed then <[i := reading]> (buttonStates b) else buttonStates b)
            (<[i := reading]> (lastButtonStates b))
            (lastStopDebounceTime b) (stopButtonState b) (lastStopButtonState b),
          (* buttonStates[valveID] == HIGH, then reading == HIGH *)
          changed && (reading =? HIGH) && (reading =? HIGH)).

(** [readStopButton]; the flag tells whether [stopWatering] is called. *)
Definition readStopButton (reading millis1 millis2 : Z) (b : Buttons)
  : Buttons * bool :=
  let lastStopDebounceTime' :=
    if negb (reading =? lastStopButtonState b) then ulong millis1
    else lastStopDebounceTime b in
  let changed :=
    (DEBOUNCE_DELAY <? ulong (millis2 - lastStopDebounceTime')) &&
    negb (reading =? stopButtonState b) in
  (mkButtons (lastDebounceTime b) (buttonStates b) (lastButtonStates b)
     lastStopDebounceTime' (if changed then reading else stopButtonState b) reading,
   changed && (reading =? HIGH) && (reading =? HIGH)).

Definition sample (b : Buttons) (s : Sample) : option (Buttons * list Call) :=
  match s with
  | ReadButton valveID reading millis1 millis2 =>
      match readButton valveID reading millis1 millis2 b with
      | Some r => Some (fst r, if snd r then [CallWaterPlant valveID] else [])
      | None => None
      end
  | ReadStopButton reading millis1 millis2 =>
      let r := readStopButton reading millis1 millis2 b in
      Some (fst r, if snd r then [CallStopWatering] else [])
  end.

Fixpoint samples (b : Buttons) (l : list Sample) : option (Buttons * list Call) :=
  match l with
  | [] => Some (b, [])
  | s :: l =>
      match sample b s with
      | Some r =>
          match samples (fst r) l with
          | Some r' => Some (fst r', snd r ++ snd r')
          | None => None
          end
      | None => None
      end
  end.

(** [waterPlant(int id, long time)] of the single-file firmware, whose events
    have no id. *)
Definition waterPlant (id time : Z) (d : Device) : option Device :=
  Controller.waterPlant NUM_VALVES QUEUE_SIZE (mkWateringEvent id (ulong time) "") d.

(** [processIncomingMessage] of the single-file firmware; [None] for the skip
    command is a store outside [skipValve]. *)
Definition processIncomingMessage (topic : Topic) (doc : JsonDoc)
    (skipValve : list bool) (d : Device) : option (list bool * Device) :=
  let valve_id := default 0 (doc_valve_id doc) in
  let watering_time := default 0 (doc_water_time doc) in
  match topic with
  | waterCommandTopic =>
      d' ← waterPlant valve_id watering_time d; Some (skipValve, d')
  | stopCommandTopic => Some (skipValve, stopWatering d)
  | stopAllCommandTopic => Some (skipValve, stopAllWatering d)
  | skipCommandTopic =>
      if (0 <=? valve_id) && (valve_id <? Z.of_nat (length skipValve))
      then Some (<[Z.to_nat valve_id := true]> skipValve, d)
      else None
  | unknownTopic => Some (skipValve, d)
  end.

(** ** Properties *)

Definition arrays_sized (b : Buttons) : Prop :=
  length (buttonStates b) = Z.to_nat NUM_VALVES /\
  length (lastButtonStates b) = Z.to_nat NUM_VALVES.

Lemma readButton_sized (valveID reading millis1 millis2 : Z) (b : Buttons) :
  arrays_sized b ->
  exists r, readButton valveID reading millis1 millis2 b = Some r /\
            arrays_sized r.1.
Proof.
  intros [H1 H2]. unfold readButton.
  destruct ((NUM_VALVES <=? valveID) || (valveID <? 0)) eqn:E.
  - eexists. split; [reflexivity|]. now split.
  - apply orb_false_elim in E as [E1 E2].
    apply Z.leb_gt in E1. apply Z.ltb_ge in E2.
    assert (Z.to_nat valveID < Z.to_nat NUM_VALVES)%nat as Hi by lia.
    destruct (lookup_lt_is_Some_2 (lastButtonStates b) (Z.to_nat valveID))
      as [last ->]; [lia|].
    destruct (lookup_lt_is_Some_2 (buttonStates b) (Z.to_nat valveID))
      as [state ->]; [lia|].
    cbn [mbind option_bind]. eexists. split; [reflexivity|].
    split; cbn [fst buttonStates lastButtonStates].
    + destruct (_ && _); [rewrite length_insert|]; exact H1.
    + rewrite length_insert. exact H2.
Qed.

Lemma samples_sized (l : list Sample) : forall b,
  arrays_sized b -> exists r, samples b l = Some r /\ arrays_sized r.1.
Proof.
  induction l as [|s l IH]; intros b Hb.
  - eexists. split; [reflexivity | exact Hb].
  - cbn [samples].
    assert (exists r, sample b s = Some r /\ arrays_sized r.1) as (r & -> & Hr).
    { destruct s as [valveID reading millis1 millis2|reading millis1 millis2];
        cbn [sample].
      - destruct (readButton_sized valveID reading millis1 millis2 b Hb)
          as (r & -> & Hr).
        eexists. split; [reflexivity | exact Hr].
      - eexists. split; [reflexivity | exact Hb]. }
    destruct (IH r.1 Hr) as (r' & -> & Hr').
    eexists. split; [reflexivity | exact Hr'].
Qed.

(** X10: a level that differs from the one read by the previous call is never
    acted upon by that call, when no more than DEBOUNCE_DELAY has passed
    between its two readings of the clock: the debounced state stays and
    waterPlant is not called. *)
Theorem changed_level_is_not_acted_upon
    (valveID reading millis1 millis2 last : Z) (b b' : Buttons) (pressed : bool) :
  lastButtonStates b !! Z.to_nat valveID = Some last ->
  reading <> last ->
  0 <= millis1 <= millis2 -> millis2 <= ULONG_MAX ->
  millis2 - millis1 <= DEBOUNCE_DELAY ->
  readButton valveID reading millis1 millis2 b = Some (b', pressed) ->
  pressed = false /\ buttonStates b' = buttonStates b.
Proof.
  intros Hlast Hneq Hm Hmax Hdelay H. unfold readButton in H.
  destruct ((NUM_VALVES <=? valveID) || (valveID <? 0)).
  { injection H as <- <-. now split. }
  rewrite Hlast in H. cbn [mbind option_bind] in H.
  destruct (buttonStates b !! Z.to_nat valveID) as [state|];
    cbn [mbind option_bind] in H; [|discriminate].
  assert ((reading =? last) = false) as E by now apply Z.eqb_neq.
  rewrite E in H. cbn [negb] in H.
  assert (ulong (millis2 - ulong millis1) = millis2 - millis1) as Hel.
  { unfold ulong, ULONG_MAX in *.
    rewrite (Z.mod_small millis1) by lia. apply Z.mod_small. lia. }
  rewrite Hel in H.
  assert ((DEBOUNCE_DELAY <? millis2 - millis1) = false) as Hd
    by (apply Z.ltb_ge; lia).
  rewrite Hd in H. cbn [andb] in H. injection H as <- <-. now split.
Qed.

(** How often a list of calls waters a valve, and how often it stops. *)
Definition waters (valveID : Z) (c : Call) : bool :=
  match c with CallWaterPlant v => v =? valveID | CallStopWatering => false end.
Definition stops (c : Call) : bool :=
  match c with CallWaterPlant _ => false | CallStopWatering => true end.

(** The samples of a button that read another level than HIGH. *)
Definition released (valveID : Z) (s : Sample) : bool :=
  match s with
  | ReadButton v reading _ _ => (v =? valveID) && negb (reading =? HIGH)
  | ReadStopButton _ _ _ => false
  end.
Definition stop_released (s : Sample) : bool :=
  match s with
  | ReadButton _ _ _ _ => false
  | ReadStopButton reading _ _ => negb (reading =? HIGH)
  end.

Definition count_if {A : Type} (f : A -> bool) (l : list A) : nat :=
  length (List.filter f l).

(** 1 while the debounced state of the button is not HIGH. *)
Definition armed (valveID : Z) (b : Buttons) : nat :=
  match buttonStates b !! Z.to_nat valveID with
  | Some state => if state =? HIGH then 0 else 1
  | None => 1
  end.
Definition stop_armed (b : Buttons) : nat :=
  if stopButtonState b =? HIGH then 0 else 1.

Lemma count_if_app {A : Type} (f : A -> bool) (l1 l2 : list A) :
  count_if f (l1 ++ l2) = (count_if f l1 + count_if f l2)%nat.
Proof. unfold count_if. now rewrite List.filter_app, length_app. Qed.

Lemma sample_waters (valveID : Z) (b : Buttons) (s : Sample) (r : Buttons * list Call) :
  0 <= valveID ->
  sample b s = Some r ->
  (count_if (waters valveID) r.2 + armed valveID r.1 <=
   armed valveID b + count_if (released valveID) [s])%nat.
Proof.
  intros Hv H. destruct s as [v reading millis1 millis2|reading millis1 millis2];
    cbn [sample] in H.
  - unfold readButton in H.
    destruct ((NUM_VALVES <=? v) || (v <? 0)) eqn:Eb.
    { cbn [mbind option_bind] in H. injection H as <-. cbn. lia. }
    apply orb_false_elim in Eb as [_ Eb]. apply Z.ltb_ge in Eb.
    destruct (lastButtonStates b !! Z.to_nat v) as [last|];
      cbn [mbind option_bind] in H; [|discriminate].
    destruct (buttonStates b !! Z.to_nat v) as [state|] eqn:Es;
      cbn [mbind option_bind] in H; [|discriminate].
    injection H as <-. cbn [fst snd].
    destruct ((DEBOUNCE_DELAY <? _) && negb (reading =? state)) eqn:Ec.
    + apply andb_prop in Ec as [_ Ec]. apply negb_true_iff, Z.eqb_neq in Ec.
      cbn [andb]. unfold armed at 1. cbn [buttonStates].
      destruct (Z.eq_dec v valveID) as [->|Hne].
      * rewrite list_lookup_insert_eq by (eapply lookup_lt_Some; eauto).
        unfold armed. rewrite Es. unfold count_if. cbn [List.filter released].
        rewrite Z.eqb_refl. cbn [andb].
        destruct (reading =? HIGH) eqn:Er.
        -- apply Z.eqb_eq in Er. subst reading.
           assert ((state =? HIGH) = false) as -> by (apply Z.eqb_neq; congruence).
           cbn. rewrite Z.eqb_refl. cbn. lia.
        -- cbn. destruct (state =? HIGH); cbn; lia.
      * rewrite list_lookup_insert_ne by lia. fold (armed valveID b).
        assert ((v =? valveID) = false) as Ev by now apply Z.eqb_neq.
        unfold count_if. cbn [List.filter released]. rewrite Ev.
        destruct (reading =? HIGH); cbn; rewrite ?Ev; cbn; lia.
    + cbn [andb]. unfold armed at 1. cbn [buttonStates]. fold (armed valveID b).
      cbn. lia.
  - injection H as <-. cbn [fst snd readStopButton].
    unfold armed at 1. cbn [buttonStates]. fold (armed valveID b).
    destruct (_ && _ && _); cbn; lia.
Qed.

Lemma sample_stops (b : Buttons) (s : Sample) (r : Buttons * list Call) :
  sample b s = Some r ->
  (count_if stops r.2 + stop_armed r.1 <= stop_armed b + count_if stop_released [s])%nat.
Proof.
  intros H. destruct s as [v reading millis1 millis2|reading millis1 millis2];
    cbn [sample] in H.
  - unfold readButton in H.
    destruct ((NUM_VALVES <=? v) || (v <? 0)).
    { cbn [mbind option_bind] in H. injection H as <-. cbn. lia. }
    destruct (lastButtonStates b !! Z.to_nat v) as [last|];
      cbn [mbind option_bind] in H; [|discriminate].
    destruct (buttonStates b !! Z.to_nat v) as [state|];
      cbn [mbind option_bind] in H; [|discriminate].
    injection H as <-. cbn [fst snd]. unfold stop_armed at 1. cbn [stopButtonState].
    fold (stop_armed b). destruct (_ && _ && _); cbn; lia.
  - injection H as <-. unfold readStopButton. cbn [fst snd].
    unfold stop_armed. cbn [stopButtonState]. unfold count_if. cbn [List.filter stop_released].
    destruct ((DEBOUNCE_DELAY <? _) && negb (reading =? stopButtonState b)) eqn:Ec.
    + apply andb_prop in Ec as [_ Ec]. apply negb_true_iff in Ec.
      cbn [andb]. destruct (reading =? HIGH) eqn:Er.
      * apply Z.eqb_eq in Er. subst reading. rewrite Z.eqb_sym in Ec. rewrite Ec.
        cbn. lia.
      * cbn. destruct (stopButtonState b =? HIGH); cbn; lia.
    + cbn [andb]. cbn. destruct (stopButtonState b =? HIGH); lia.
Qed.

Definition call_in_range (c : Call) : Prop :=
  match c with
  | CallWaterPlant valveID => 0 <= valveID < NUM_VALVES
  | CallStopWatering => True
  end.

Lemma samples_calls_in_range (l : list Sample) : forall b r,
  samples b l = Some r -> Forall call_in_range (snd r).
Proof.
  induction l as [|s l IH]; intros b r H; cbn [samples] in H.
  - injection H as <-. constructor.
  - destruct (sample b s) as [r1|] eqn:E1; [|discriminate].
    destruct (samples (fst r1) l) as [r2|] eqn:E2; [|discriminate].
    injection H as <-. cbn [snd]. apply Forall_app_2; [|now apply (IH _ _ E2)].
    destruct s as [v reading millis1 millis2|reading millis1 millis2];
      cbn [sample] in E1.
    + unfold readButton in E1.
      destruct ((NUM_VALVES <=? v) || (v <? 0)) eqn:Eb.
      { injection E1 as <-. constructor. }
      apply orb_false_elim in Eb as [Eb1 Eb2].
      apply Z.leb_gt in Eb1. apply Z.ltb_ge in Eb2.
      destruct (lastButtonStates b !! Z.to_nat v) as [last|];
        cbn [mbind option_bind] in E1; [|discriminate].
      destruct (buttonStates b !! Z.to_nat v) as [state|];
        cbn [mbind option_bind] in E1; [|discriminate].
      injection E1 as <-. cbn [snd].
      destruct (_ && _ && _); repeat constructor; assumption.
    + injection E1 as <-. cbn [snd readStopButton].
      destruct (_ && _ && _); repeat constructor.
Qed.

Lemma no_calls_below_0 (valveID : Z) (calls : list Call) :
  valveID < 0 -> Forall call_in_range calls -> count_if (waters valveID) calls = 0%nat.
Proof.
  intros Hv H. induction H as [|c calls Hc _ IH]; [reflexivity|].
  unfold count_if in *. cbn [List.filter].
  destruct c as [v|]; cbn [waters call_in_range] in *; [|exact IH].
  destruct (v =? valveID) eqn:E; [|exact IH]. apply Z.eqb_eq in E. lia.
Qed.

(** X11: with buttonStates and lastButtonStates of NUM_VALVES entries, no
    sequence of calls of readButton and readStopButton, whatever the valve
    numbers, levels and clock values, reads or writes outside the two arrays,
    and every call of waterPlant it makes is for a valve 0..NUM_VALVES-1; a
    call of readButton for a valve number outside that range changes nothing
    and waters nothing. *)
Theorem buttons_stay_in_bounds (l : list Sample) (b : Buttons) :
  arrays_sized b ->
  (exists r, samples b l = Some r /\ arrays_sized r.1 /\
             Forall call_in_range r.2) /\
  (forall valveID reading millis1 millis2,
     valveID < 0 \/ NUM_VALVES <= valveID ->
     readButton valveID reading millis1 millis2 b = Some (b, false)).
Proof.
  intros Hb. split.
  - destruct (samples_sized l b Hb) as (r & Hr & Hs).
    exists r. split; [exact Hr|]. split; [exact Hs|].
    now apply (samples_calls_in_range l b).
  - intros valveID reading millis1 millis2 Hv. unfold readButton.
    replace ((NUM_VALVES <=? valveID) || (valveID <? 0)) with true; [reflexivity|].
    symmetry. apply orb_true_iff.
    destruct Hv; [right; now apply Z.ltb_lt | left; now apply Z.leb_le].
Qed.

(** X12: a button waters once per press: over any sequence of samples, the
    calls of waterPlant for a valve are at most one per sample of its button
    that read a level other than HIGH, plus one if the debounced state of the
    button was not HIGH at the start.  A button held down, however long, waters
    at most once. *)
Theorem button_waters_once_per_press (valveID : Z) (l : list Sample) :
  forall (b : Buttons) (r : Buttons * list Call),
  samples b l = Some r ->
  (count_if (waters valveID) r.2 <= armed valveID b + count_if (released valveID) l)%nat.
Proof.
  intros b r H.
  destruct (Z.lt_ge_cases valveID 0) as [Hneg|Hv].
  { rewrite (no_calls_below_0 valveID _ Hneg (samples_calls_in_range l b r H)). lia. }
  enough (count_if (waters valveID) r.2 + armed valveID r.1 <=
          armed valveID b + count_if (released valveID) l)%nat by lia.
  revert b r H. induction l as [|s l IH]; intros b r H; cbn [samples] in H.
  - injection H as <-. cbn. lia.
  - destruct (sample b s) as [r1|] eqn:E1; cbn [mbind option_bind] in H;
      [|discriminate].
    destruct (samples r1.1 l) as [r2|] eqn:E2; cbn [mbind option_bind] in H;
      [|discriminate].
    injection H as <-. cbn [fst snd].
    pose proof (sample_waters valveID b s r1 Hv E1) as H1.
    pose proof (IH _ _ E2) as H2.
    change (s :: l) with ([s] ++ l). rewrite !count_if_app. lia.
Qed.

(** X13: the stop button stops once per press: over any sequence of samples, the
    calls of stopWatering are at most one per sample of the stop button that
    read a level other than HIGH, plus one if its debounced state was not HIGH
    at the start. *)
Theorem stop_button_stops_once_per_press (l : list Sample) :
  forall (b : Buttons) (r : Buttons * list Call),
  samples b l = Some r ->
  (count_if stops r.2 <= stop_armed b + count_if stop_released l)%nat.
Proof.
  intros b r H.
  enough (count_if stops r.2 + stop_armed r.1 <=
          stop_armed b + count_if stop_released l)%nat by lia.
  revert b r H. induction l as [|s l IH]; intros b r H; cbn [samples] in H.
  - injection H as <-. cbn. lia.
  - destruct (sample b s) as [r1|] eqn:E1; cbn [mbind option_bind] in H;
      [|discriminate].
    destruct (samples r1.1 l) as [r2|] eqn:E2; cbn [mbind option_bind] in H;
      [|discriminate].
    injection H as <-. cbn [fst snd].
    pose proof (sample_stops b s r1 E1) as H1.
    pose proof (IH _ _ E2) as H2.
    change (s :: l) with ([s] ++ l). rewrite !count_if_app. lia.
Qed.

(** X14: a skip command makes the firmware pass over exactly one event of the
    valve: the next event of that valve is taken off the queue without the
    valve being opened and without anything handed to the publisher, the flag
    is cleared again, and the event after it is watered. *)
Theorem skip_command_skips_one_event
    (skipValve : list bool) (d : Device) (valveID : Z) (time : option Z)
    (we1 we2 : WateringEvent) (q : list WateringEvent) (millis1 millis2 : Z) :
  0 <= valveID ->
  skipValve !! Z.to_nat valveID = Some false ->
  wateringQueue d = we1 :: we2 :: q ->
  plant_position we1 = valveID -> plant_position we2 = valveID ->
  let d1 := set_notified false (set_wateringQueue (we2 :: q) d) in
  exists flags,
    processIncomingMessage skipCommandTopic (mkJsonDoc (Some valveID) time)
      skipValve d = Some (flags, d) /\
    flags !! Z.to_nat valveID = Some true /\
    waterPlantTask_receive_with_skip DEFAULT_WATER_TIME flags millis1 d =
      Some (skipValve, d1) /\
    waterPlantTask_receive_with_skip DEFAULT_WATER_TIME skipValve millis2 d1 =
      Some (skipValve,
            set_task (NotifyWait (normalize DEFAULT_WATER_TIME we2) millis2)
              (log_gpio (On valveID)
                 (set_notified false (set_wateringQueue q d1)))).
Proof.
  intros Hv Hflag Hq Hp1 Hp2 d1.
  pose proof (lookup_lt_Some _ _ _ Hflag) as Hlen.
  exists (<[Z.to_nat valveID := true]> skipValve).
  assert (plant_position (normalize DEFAULT_WATER_TIME we1) = valveID) as Hn1
    by (unfold normalize; destruct (duration we1 =? 0); exact Hp1).
  assert (plant_position (normalize DEFAULT_WATER_TIME we2) = valveID) as Hn2
    by (unfold normalize; destruct (duration we2 =? 0); exact Hp2).
  split; [|split; [|split]].
  - unfold processIncomingMessage. cbn [doc_valve_id default from_option Datatypes.id].
    replace ((0 <=? valveID) && (valveID <? Z.of_nat (length skipValve)))
      with true; [reflexivity|].
    symmetry. apply andb_true_iff. split; [apply Z.leb_le | apply Z.ltb_lt]; lia.
  - now apply list_lookup_insert_eq.
  - unfold waterPlantTask_receive_with_skip. rewrite Hq, Hn1.
    rewrite list_lookup_insert_eq by exact Hlen. cbn [mbind option_bind].
    rewrite list_insert_insert_eq, list_insert_id by exact Hflag. reflexivity.
  - unfold waterPlantTask_receive_with_skip. subst d1.
    cbn [wateringQueue set_notified set_wateringQueue]. rewrite Hn2, Hflag.
    reflexivity.
Qed.

(** X15: a water command without a valve number waters valve 0 in the
    single-file firmware, for the time of the command; the firmware of
    garden-controller drops a command without a position. *)
Theorem water_command_without_valve
    (time : option Z) (skipValve : list bool) (d : Device)
    (duration : option Z) (id : option string) :
  0 < NUM_VALVES ->
  (length (wateringQueue d) < QUEUE_SIZE)%nat ->
  processIncomingMessage waterCommandTopic (mkJsonDoc None time) skipValve d =
    Some (skipValve,
          set_wateringQueue
            (wateringQueue d ++ [mkWateringEvent 0 (ulong (default 0 time)) ""]) d) /\
  Controller.processIncomingMessage NUM_VALVES QUEUE_SIZE
    Controller.waterCommandTopic (Controller.mkJsonDoc None duration id) d = Some d.
Proof.
  intros Hn Hroom. split.
  - unfold processIncomingMessage, waterPlant, Controller.waterPlant, out_of_range,
      xQueueSend.
    cbn [doc_valve_id doc_water_time default from_option Datatypes.id plant_position].
    replace ((NUM_VALVES <=? 0) || (0 <? 0)) with false
      by (symmetry; apply orb_false_intro; [apply Z.leb_gt; lia | reflexivity]).
    replace (length (wateringQueue d) <? QUEUE_SIZE)%nat with true
      by (symmetry; now apply Nat.ltb_lt).
    reflexivity.
  - unfold Controller.processIncomingMessage, Controller.waterPlant, out_of_range,
      deserialize.
    cbn [Controller.doc_plant_position default from_option Datatypes.id plant_position].
    replace (-1 <? 0) with true by reflexivity.
    now rewrite orb_true_r.
Qed.

End Firmware.

(** The arrays as the firmware declares them, for three valves. *)
Definition buttons_at_reset : Buttons := mkButtons 0 [0; 0; 0] [0; 0; 0] 0 0 0.

(** Button 1 bounces, is held down for three samples and let go; the stop
    button is held for two. *)
Definition one_press : list Sample :=
  [ReadButton 1 1 100 100; ReadButton 1 0 110 110; ReadButton 1 1 120 120;
   ReadButton 1 1 200 200; ReadStopButton 1 210 210; ReadButton 1 1 300 300;
   ReadStopButton 1 310 310; ReadButton 7 1 320 320; ReadButton 1 0 400 400;
   ReadButton 1 0 500 500].

Lemma buttons_stay_in_bounds_witness :
  exists r, samples 3 50 buttons_at_reset one_press = Some r /\
            r.2 = [CallWaterPlant 1; CallStopWatering] /\
            arrays_sized 3 r.1 /\
            readButton 3 50 7 1 310 310 buttons_at_reset = Some (buttons_at_reset, false).
Proof.
  destruct (buttons_stay_in_bounds 3 50 one_press buttons_at_reset)
    as [(r & Hr & Hs & _) Hout]; [now split|].
  exists r. split; [exact Hr|]. split.
  - vm_compute in Hr. injection Hr as <-. reflexivity.
  - split; [exact Hs|]. apply Hout. right. lia.
Defined.

Lemma changed_level_is_not_acted_upon_witness :
  readButton 3 50 1 1 100 100 buttons_at_reset =
    Some (mkButtons 100 [0; 0; 0] [0; 1; 0] 0 0 0, false) /\
  false = false /\ [0; 0; 0] = buttonStates buttons_at_reset.
Proof.
  split; [reflexivity|].
  apply (changed_level_is_not_acted_upon 3 50 1 1 100 100 0 buttons_at_reset
           (mkButtons 100 [0; 0; 0] [0; 1; 0] 0 0 0) false).
  - reflexivity.
  - discriminate.
  - lia.
  - unfold ULONG_MAX. lia.
  - lia.
  - reflexivity.
Defined.

Lemma button_waters_once_per_press_witness :
  (count_if (waters 1) [CallWaterPlant 1; CallStopWatering] <=
   armed 1 buttons_at_reset + count_if (released 1) one_press)%nat.
Proof.
  apply (button_waters_once_per_press 3 50 1 one_press buttons_at_reset
           (mkButtons 400 [0; 0; 0] [0; 0; 0] 210 1 1,
            [CallWaterPlant 1; CallStopWatering])).
  vm_compute; reflexivity.
Defined.

Lemma stop_button_stops_once_per_press_witness :
  (count_if stops [CallWaterPlant 1; CallStopWatering] <=
   stop_armed buttons_at_reset + count_if stop_released one_press)%nat.
Proof.
  apply (stop_button_stops_once_per_press 3 50 one_press buttons_at_reset
           (mkButtons 400 [0; 0; 0] [0; 0; 0] 210 1 1,
            [CallWaterPlant 1; CallStopWatering])).
  vm_compute; reflexivity.
Defined.

Definition two_events_for_valve_2 : Device :=
  set_wateringQueue [mkWateringEvent 2 1000 ""; mkWateringEvent 2 0 ""]
    (setup 86400000).

Lemma skip_command_skips_one_event_witness :
  exists flags,
    processIncomingMessage 3 10 skipCommandTopic (mkJsonDoc (Some 2) None)
      [false; false; false] two_events_for_valve_2 =
      Some (flags, two_events_for_valve_2) /\
    flags !! 2%nat = Some true /\
    waterPlantTask_receive_with_skip 15000 flags 10 two_events_for_valve_2 =
      Some ([false; false; false],
            set_notified false
              (set_wateringQueue [mkWateringEvent 2 0 ""] two_events_for_valve_2)) /\
    waterPlantTask_receive_with_skip 15000 [false; false; false] 20
      (set_notified false
         (set_wateringQueue [mkWateringEvent 2 0 ""] two_events_for_valve_2)) =
      Some ([false; false; false],
            set_task (NotifyWait (mkWateringEvent 2 15000 "") 20)
              (log_gpio (On 2)
                 (set_notified false
                    (set_wateringQueue []
                       (set_notified false
                          (set_wateringQueue [mkWateringEvent 2 0 ""]
                             two_events_for_valve_2)))))).
Proof.
  apply (skip_command_skips_one_event 3 15000 10 [false; false; false]
           two_events_for_valve_2 2 None
           (mkWateringEvent 2 1000 "") (mkWateringEvent 2 0 "") [] 10 20).
  - lia.
  - reflexivity.
  - reflexivity.
  - reflexivity.
  - reflexivity.
Defined.

Lemma water_command_without_valve_witness :
  processIncomingMessage 3 10 waterCommandTopic (mkJsonDoc None (Some 2000))
    [false; false; false] (setup 86400000) =
    Some ([false; false; false],
          set_wateringQueue [mkWateringEvent 0 2000 ""] (setup 86400000)) /\
  Controller.processIncomingMessage 3 10 Controller.waterCommandTopic
    (Controller.mkJsonDoc None (Some 2000) None) (setup 86400000) =
    Some (setup 86400000).
Proof.
  apply (water_command_without_valve 3 10 (Some 2000) [false; false; false]
           (setup 86400000) (Some 2000) None).
  - lia.
  - simpl. lia.
Defined.

End SingleFile.

(* ===================================================================== *)
(** * The Zone of the Go application *)
(* ===================================================================== *)
Module Pkg.

(** [time.Time] as an instant, [float32] as the rational it denotes. *)
Definition Time : Type := Z.
Definition float32 : Type := Q.

Record ZoneDetails := mkZoneDetails {
  Description : string;
  Notes : string
}.

(** [weather.ScaleControl], [weather.SoilMoistureControl] and
    [weather.Control], with the fields that [Patch] and the [Has...Control]
    tests read. *)
Record ScaleControl := mkScaleControl {
  BaselineValue : option float32;
  Factor : option float32;
  Range : option float32
}.

Record SoilMoistureControl := mkSoilMoistureControl {
  MinimumMoisture : Z
}.

Record Control := mkControl {
  Rain : option ScaleControl;
  SoilMoisture : option SoilMoistureControl;
  Temperature : option ScaleControl
}.

Record WaterSchedule := mkWaterSchedule {
  Duration : string;
  Interval : string;
  StartTime : option Time;
  WeatherControl : option Control
}.

Record Zone := mkZone {
  Name : string;
  Details : option ZoneDetails;
  ID : string;
  Position : option N;
  CreatedAt : option Time;
  EndDate : option Time;
  ZoneWaterSchedule : option WaterSchedule   (* the field WaterSchedule *)
}.

(** The zero values [&ZoneDetails{}], [&WaterSchedule{}], [&weather.Control{}],
    [&weather.ScaleControl{}] and [&weather.SoilMoistureControl{}]. *)
Definition zeroZoneDetails : ZoneDetails := mkZoneDetails "" "".
Definition zeroWaterSchedule : WaterSchedule := mkWaterSchedule "" "" None None.
Definition zeroControl : Control := mkControl None None None.
Definition zeroScaleControl : ScaleControl := mkScaleControl None None None.
Definition zeroSoilMoistureControl : SoilMoistureControl := mkSoilMoistureControl 0.

(** [z.EndDate != nil && z.EndDate.Before(time.Now())] *)
Definition EndDated (now : Time) (z : Zone) : bool :=
  match EndDate z with
  | Some t => t <? now
  | None => false
  end.

(** [if new != "" { old = new }] and [if new != nil { old = new }]. *)
Definition patch_string (old new : string) : string :=
  if String.eqb new "" then old else new.
Definition patch_pointer {A} (old new : option A) : option A :=
  match new with Some _ => new | None => old end.

(** The three assignments guarded by [BaselineValue != nil], [Factor != nil]
    and [Range != nil], on the control that [Patch] found or initiated. *)
Definition patch_scale (old : option ScaleControl) (new : ScaleControl)
  : ScaleControl :=
  let sc := default zeroScaleControl old in
  mkScaleControl (patch_pointer (BaselineValue sc) (BaselineValue new))
                 (patch_pointer (Factor sc) (Factor new))
                 (patch_pointer (Range sc) (Range new)).

Definition patch_soil_moisture (old : option SoilMoistureControl)
    (new : SoilMoistureControl) : SoilMoistureControl :=
  let sm := default zeroSoilMoistureControl old in
  if MinimumMoisture new =? 0 then sm
  else mkSoilMoistureControl (MinimumMoisture new).

Definition patch_control (old : option Control) (new : Control) : Control :=
  let wc := default zeroControl old in
  mkControl
    (match Rain new with
     | Some r => Some (patch_scale (Rain wc) r)
     | None => Rain wc
     end)
    (match SoilMoisture new with
     | Some sm => Some (patch_soil_moisture (SoilMoisture wc) sm)
     | None => SoilMoisture wc
     end)
    (match Temperature new with
     | Some t => Some (patch_scale (Temperature wc) t)
     | None => Temperature wc
     end).

Definition patch_schedule (old : option WaterSchedule) (new : WaterSchedule)
  : WaterSchedule :=
  let ws := default zeroWaterSchedule old in
  mkWaterSchedule
    (patch_string (Duration ws) (Duration new))
    (patch_string (Interval ws) (Interval new))
    (patch_pointer (StartTime ws) (StartTime new))
    (match WeatherControl new with
     | Some wc => Some (patch_control (WeatherControl ws) wc)
     | None => WeatherControl ws
     end).

Definition patch_details (old : option ZoneDetails) (new : ZoneDetails)
  : ZoneDetails :=
  let det := default zeroZoneDetails old in
  mkZoneDetails (patch_string (Description det) (Description new))
                (patch_string (Notes det) (Notes new)).

(** [func (z *Zone) Patch(newZone *Zone)]: the zone that [z] points to after
    the call. *)
Definition Patch (z newZone : Zone) : Zone :=
  mkZone
    (patch_string (Name z) (Name newZone))
    (match Details newZone with
     | Some det => Some (patch_details (Details z) det)
     | None => Details z
     end)
    (ID z)
    (patch_pointer (Position z) (Position newZone))
    (patch_pointer (CreatedAt z) (CreatedAt newZone))
    (match EndDate z, EndDate newZone with
     | Some _, None => EndDate newZone
     | _, _ => EndDate z
     end)
    (match ZoneWaterSchedule newZone with
     | Some ws => Some (patch_schedule (ZoneWaterSchedule z) ws)
     | None => ZoneWaterSchedule z
     end).

Definition HasRainControl (ws : WaterSchedule) : bool :=
  match WeatherControl ws with
  | Some wc => bool_decide (is_Some (Rain wc))
  | None => false
  end.

Definition HasSoilMoistureControl (ws : WaterSchedule) : bool :=
  match WeatherControl ws with
  | Some wc =>
      match SoilMoisture wc with
      | Some sm => 0 <? MinimumMoisture sm
      | None => false
      end
  | None => false
  end.

(** [*ws.WeatherControl.Temperature.Factor != 0] dereferences a nil pointer
    when the control has no Factor: [None] is that panic. *)
Definition HasTemperatureControl (ws : WaterSchedule) : option bool :=
  match WeatherControl ws with
  | Some wc =>
      match Temperature wc with
      | Some t =>
          match Factor t with
          | Some f => Some (negb (Qeq_bool f 0))
          | None => None
          end
      | None => Some false
      end
  | None => Some false
  end.

(** What a read of a field gives through pointers that may be nil: the field
    of the zero value. *)
Definition schedule_of (z : Zone) : WaterSchedule :=
  default zeroWaterSchedule (ZoneWaterSchedule z).
Definition control_of (z : Zone) : Control :=
  default zeroControl (WeatherControl (schedule_of z)).
Definition rain_of (z : Zone) : ScaleControl :=
  default zeroScaleControl (Rain (control_of z)).
Definition temperature_of (z : Zone) : ScaleControl :=
  default zeroScaleControl (Temperature (control_of z)).
Definition soil_moisture_of (z : Zone) : SoilMoistureControl :=
  default zeroSoilMoistureControl (SoilMoisture (control_of z)).
Definition details_of (z : Zone) : ZoneDetails :=
  default zeroZoneDetails (Details z).

(** ** Patch leaves alone what the patch does not set *)

Lemma patch_string_unset (old new : string) :
  new = ""%string -> patch_string old new = old.
Proof. intros ->. reflexivity. Qed.

Lemma patch_pointer_unset {A} (old new : option A) :
  new = None -> patch_pointer old new = old.
Proof. intros ->. reflexivity. Qed.

Section PatchFrame.
Variables z p : Zone.

(** How [Patch] acts on each nested struct. *)
Lemma details_of_Patch :
  details_of (Patch z p) =
  match Details p with
  | Some det => patch_details (Details z) det
  | None => details_of z
  end.
Proof. unfold details_of. simpl. now destruct (Details p). Qed.

Lemma schedule_of_Patch :
  schedule_of (Patch z p) =
  match ZoneWaterSchedule p with
  | Some ws => patch_schedule (ZoneWaterSchedule z) ws
  | None => schedule_of z
  end.
Proof. unfold schedule_of. simpl. now destruct (ZoneWaterSchedule p). Qed.

Lemma WeatherControl_Patch :
  WeatherControl (schedule_of (Patch z p)) =
  match WeatherControl (schedule_of p) with
  | Some wc => Some (patch_control (WeatherControl (schedule_of z)) wc)
  | None => WeatherControl (schedule_of z)
  end.
Proof.
  rewrite schedule_of_Patch. unfold schedule_of.
  destruct (ZoneWaterSchedule p) as [ws|]; reflexivity.
Qed.

Lemma control_of_Patch :
  control_of (Patch z p) =
  match WeatherControl (schedule_of p) with
  | Some wc => patch_control (WeatherControl (schedule_of z)) wc
  | None => control_of z
  end.
Proof.
  unfold control_of. rewrite WeatherControl_Patch.
  now destruct (WeatherControl (schedule_of p)).
Qed.

Lemma Rain_Patch :
  Rain (control_of (Patch z p)) =
  match Rain (control_of p) with
  | Some r => Some (patch_scale (Rain (control_of z)) r)
  | None => Rain (control_of z)
  end.
Proof.
  rewrite control_of_Patch. unfold control_of.
  destruct (WeatherControl (schedule_of p)) as [wc|]; reflexivity.
Qed.

Lemma Temperature_Patch :
  Temperature (control_of (Patch z p)) =
  match Temperature (control_of p) with
  | Some t => Some (patch_scale (Temperature (control_of z)) t)
  | None => Temperature (control_of z)
  end.
Proof.
  rewrite control_of_Patch. unfold control_of.
  destruct (WeatherControl (schedule_of p)) as [wc|]; reflexivity.
Qed.

Lemma SoilMoisture_Patch :
  SoilMoisture (control_of (Patch z p)) =
  match SoilMoisture (control_of p) with
  | Some sm => Some (patch_soil_moisture (SoilMoisture (control_of z)) sm)
  | None => SoilMoisture (control_of z)
  end.
Proof.
  rewrite control_of_Patch. unfold control_of.
  destruct (WeatherControl (schedule_of p)) as [wc|]; reflexivity.
Qed.

Lemma rain_of_Patch :
  rain_of (Patch z p) =
  match Rain (control_of p) with
  | Some r => patch_scale (Rain (control_of z)) r
  | None => rain_of z
  end.
Proof. unfold rain_of. rewrite Rain_Patch. now destruct (Rain (control_of p)). Qed.

Lemma temperature_of_Patch :
  temperature_of (Patch z p) =
  match Temperature (control_of p) with
  | Some t => patch_scale (Temperature (control_of z)) t
  | None => temperature_of z
  end.
Proof.
  unfold temperature_of. rewrite Temperature_Patch.
  now destruct (Temperature (control_of p)).
Qed.

Lemma soil_moisture_of_Patch :
  soil_moisture_of (Patch z p) =
  match SoilMoisture (control_of p) with
  | Some sm => patch_soil_moisture (SoilMoisture (control_of z)) sm
  | None => soil_moisture_of z
  end.
Proof.
  unfold soil_moisture_of. rewrite SoilMoisture_Patch.
  now destruct (SoilMoisture (control_of p)).
Qed.

(** A field that a scale control of the patch leaves nil keeps its value. *)
Lemma patch_scale_BaselineValue (old : option ScaleControl) (new : ScaleControl) :
  BaselineValue new = None ->
  BaselineValue (patch_scale old new) = BaselineValue (default zeroScaleControl old).
Proof. intros H. simpl. now rewrite H. Qed.

Lemma patch_scale_Factor (old : option ScaleControl) (new : ScaleControl) :
  Factor new = None ->
  Factor (patch_scale old new) = Factor (default zeroScaleControl old).
Proof. intros H. simpl. now rewrite H. Qed.

Lemma patch_scale_Range (old : option ScaleControl) (new : ScaleControl) :
  Range new = None ->
  Range (patch_scale old new) = Range (default zeroScaleControl old).
Proof. intros H. simpl. now rewrite H. Qed.

Lemma scale_frame (get : ScaleControl -> option float32)
    (sub : Control -> option ScaleControl) :
  (forall old new, get new = None ->
     get (patch_scale old new) = get (default zeroScaleControl old)) ->
  sub (control_of (Patch z p)) =
    match sub (control_of p) with
    | Some r => Some (patch_scale (sub (control_of z)) r)
    | None => sub (control_of z)
    end ->
  get (default zeroScaleControl (sub (control_of p))) = None ->
  get (default zeroScaleControl (sub (control_of (Patch z p)))) =
  get (default zeroScaleControl (sub (control_of z))).
Proof.
  intros Hget Hsub. rewrite Hsub.
  destruct (sub (control_of p)) as [r|]; simpl; [|reflexivity].
  apply Hget.
Qed.

Lemma Patch_MinimumMoisture :
  MinimumMoisture (soil_moisture_of p) = 0 ->
  MinimumMoisture (soil_moisture_of (Patch z p)) =
  MinimumMoisture (soil_moisture_of z).
Proof.
  rewrite soil_moisture_of_Patch.
  change (soil_moisture_of p)
    with (default zeroSoilMoistureControl (SoilMoisture (control_of p))).
  destruct (SoilMoisture (control_of p)) as [sm|]; simpl; [|reflexivity].
  intros H. unfold patch_soil_moisture. now rewrite H.
Qed.

Lemma Patch_schedule_strings :
  (Duration (schedule_of p) = ""%string ->
   Duration (schedule_of (Patch z p)) = Duration (schedule_of z)) /\
  (Interval (schedule_of p) = ""%string ->
   Interval (schedule_of (Patch z p)) = Interval (schedule_of z)) /\
  (StartTime (schedule_of p) = None ->
   StartTime (schedule_of (Patch z p)) = StartTime (schedule_of z)).
Proof.
  rewrite schedule_of_Patch.
  change (schedule_of p) with (default zeroWaterSchedule (ZoneWaterSchedule p)).
  destruct (ZoneWaterSchedule p) as [ws|]; simpl;
    [|split; [|split]; reflexivity].
  split; [|split]; intros H; rewrite H; reflexivity.
Qed.

Lemma Patch_details_strings :
  (Description (details_of p) = ""%string ->
   Description (details_of (Patch z p)) = Description (details_of z)) /\
  (Notes (details_of p) = ""%string ->
   Notes (details_of (Patch z p)) = Notes (details_of z)).
Proof.
  rewrite details_of_Patch.
  change (details_of p) with (default zeroZoneDetails (Details p)).
  destruct (Details p) as [det|]; simpl; [|split; reflexivity].
  split; intros H; rewrite H; reflexivity.
Qed.

(** C10: Patch keeps every field that the patch leaves unset (the empty
    string, a nil pointer, a MinimumMoisture of 0), a field of a struct
    reached through a nil pointer reading as unset; the ID is never touched;
    EndDate alone is different: it becomes nil when the patch has no EndDate
    and is kept otherwise. *)
Theorem Patch_keeps_unset_fields :
  (Name p = ""%string -> Name (Patch z p) = Name z) /\
  (Position p = None -> Position (Patch z p) = Position z) /\
  (CreatedAt p = None -> CreatedAt (Patch z p) = CreatedAt z) /\
  ID (Patch z p) = ID z /\
  (Details p = None -> Details (Patch z p) = Details z) /\
  (Description (details_of p) = ""%string ->
   Description (details_of (Patch z p)) = Description (details_of z)) /\
  (Notes (details_of p) = ""%string ->
   Notes (details_of (Patch z p)) = Notes (details_of z)) /\
  (ZoneWaterSchedule p = None ->
   ZoneWaterSchedule (Patch z p) = ZoneWaterSchedule z) /\
  (Duration (schedule_of p) = ""%string ->
   Duration (schedule_of (Patch z p)) = Duration (schedule_of z)) /\
  (Interval (schedule_of p) = ""%string ->
   Interval (schedule_of (Patch z p)) = Interval (schedule_of z)) /\
  (StartTime (schedule_of p) = None ->
   StartTime (schedule_of (Patch z p)) = StartTime (schedule_of z)) /\
  (WeatherControl (schedule_of p) = None ->
   WeatherControl (schedule_of (Patch z p)) = WeatherControl (schedule_of z)) /\
  (Rain (control_of p) = None ->
   Rain (control_of (Patch z p)) = Rain (control_of z)) /\
  (BaselineValue (rain_of p) = None ->
   BaselineValue (rain_of (Patch z p)) = BaselineValue (rain_of z)) /\
  (Factor (rain_of p) = None ->
   Factor (rain_of (Patch z p)) = Factor (rain_of z)) /\
  (Range (rain_of p) = None ->
   Range (rain_of (Patch z p)) = Range (rain_of z)) /\
  (SoilMoisture (control_of p) = None ->
   SoilMoisture (control_of (Patch z p)) = SoilMoisture (control_of z)) /\
  (MinimumMoisture (soil_moisture_of p) = 0 ->
   MinimumMoisture (soil_moisture_of (Patch z p)) =
   MinimumMoisture (soil_moisture_of z)) /\
  (Temperature (control_of p) = None ->
   Temperature (control_of (Patch z p)) = Temperature (control_of z)) /\
  (BaselineValue (temperature_of p) = None ->
   BaselineValue (temperature_of (Patch z p)) = BaselineValue (temperature_of z)) /\
  (Factor (temperature_of p) = None ->
   Factor (temperature_of (Patch z p)) = Factor (temperature_of z)) /\
  (Range (temperature_of p) = None ->
   Range (temperature_of (Patch z p)) = Range (temperature_of z)) /\
  EndDate (Patch z p) =
    match EndDate p with None => None | Some _ => EndDate z end.
Proof.
  destruct Patch_schedule_strings as (HD & HI & HS).
  destruct Patch_details_strings as (Hde & Hno).
  repeat lazymatch goal with |- _ /\ _ => split end.
  - intros H. simpl. now apply patch_string_unset.
  - intros H. simpl. now apply patch_pointer_unset.
  - intros H. simpl. now apply patch_pointer_unset.
  - reflexivity.
  - intros H. simpl. now rewrite H.
  - exact Hde.
  - exact Hno.
  - intros H. simpl. now rewrite H.
  - exact HD.
  - exact HI.
  - exact HS.
  - intros H. rewrite WeatherControl_Patch. now rewrite H.
  - intros H. rewrite Rain_Patch. now rewrite H.
  - apply (scale_frame BaselineValue Rain patch_scale_BaselineValue Rain_Patch).
  - apply (scale_frame Factor Rain patch_scale_Factor Rain_Patch).
  - apply (scale_frame Range Rain patch_scale_Range Rain_Patch).
  - intros H. rewrite SoilMoisture_Patch. now rewrite H.
  - exact Patch_MinimumMoisture.
  - intros H. rewrite Temperature_Patch. now rewrite H.
  - apply (scale_frame BaselineValue Temperature patch_scale_BaselineValue
             Temperature_Patch).
  - apply (scale_frame Factor Temperature patch_scale_Factor Temperature_Patch).
  - apply (scale_frame Range Temperature patch_scale_Range Temperature_Patch).
  - simpl. destruct (EndDate z), (EndDate p); reflexivity.
Qed.

End PatchFrame.

(** A patch that only renames: the name changes, the schedule stays, and the
    EndDate of the zone is cleared because the patch has none. *)
Example Patch_rename :
  Patch (mkZone "a" None "id1" (Some 2%N) (Some 1) (Some 5)
           (Some (mkWaterSchedule "15m" "24h" None None)))
        (mkZone "b" None "" None None None None)
  = mkZone "b" None "id1" (Some 2%N) (Some 1) None
      (Some (mkWaterSchedule "15m" "24h" None None)).
Proof. reflexivity. Qed.

(** HasSoilMoistureControl holds exactly when the control is there with a
    minimum above 0. *)
Lemma HasSoilMoistureControl_spec (ws : WaterSchedule) :
  HasSoilMoistureControl ws = true <->
  exists wc sm, WeatherControl ws = Some wc /\ SoilMoisture wc = Some sm /\
                0 < MinimumMoisture sm.
Proof.
  unfold HasSoilMoistureControl. split.
  - destruct (WeatherControl ws) as [wc|]; [|discriminate].
    destruct (SoilMoisture wc) as [sm|] eqn:E; [|discriminate].
    intros H. apply Z.ltb_lt in H. now exists wc, sm.
  - intros (wc & sm & -> & Hsm & Hpos). rewrite Hsm. now apply Z.ltb_lt.
Qed.

(** [HasWeatherControl]: Go evaluates [&&] and [||] from the left and stops
    at the first operand that decides the result; [None] is the panic of
    [HasTemperatureControl]. *)
Definition HasWeatherControl (z : Zone) : option bool :=
  match ZoneWaterSchedule z with
  | None => Some false
  | Some ws =>
      if HasRainControl ws then Some true
      else if HasSoilMoistureControl ws then Some true
      else HasTemperatureControl ws
  end.

(** ** Patch takes over what the patch sets, and is idempotent *)

Lemma patch_string_set (old new : string) :
  new <> ""%string -> patch_string old new = new.
Proof.
  intros H. unfold patch_string.
  destruct (String.eqb_spec new ""); [contradiction | reflexivity].
Qed.

Lemma patch_string_twice (old new : string) :
  patch_string (patch_string old new) new = patch_string old new.
Proof. unfold patch_string. now destruct (String.eqb new ""). Qed.

Lemma patch_pointer_twice {A} (old new : option A) :
  patch_pointer (patch_pointer old new) new = patch_pointer old new.
Proof. now destruct new. Qed.

Lemma patch_scale_twice (old : option ScaleControl) (new : ScaleControl) :
  patch_scale (Some (patch_scale old new)) new = patch_scale old new.
Proof.
  unfold patch_scale. cbn [default from_option Datatypes.id BaselineValue Factor Range].
  now rewrite !patch_pointer_twice.
Qed.

Lemma patch_soil_moisture_twice (old : option SoilMoistureControl)
    (new : SoilMoistureControl) :
  patch_soil_moisture (Some (patch_soil_moisture old new)) new =
  patch_soil_moisture old new.
Proof.
  unfold patch_soil_moisture. cbn [default from_option Datatypes.id].
  now destruct (MinimumMoisture new =? 0).
Qed.

Lemma patch_control_twice (old : option Control) (new : Control) :
  patch_control (Some (patch_control old new)) new = patch_control old new.
Proof.
  unfold patch_control.
  cbn [default from_option Datatypes.id Rain SoilMoisture Temperature].
  destruct (Rain new), (SoilMoisture new), (Temperature new);
    now rewrite ?patch_scale_twice, ?patch_soil_moisture_twice.
Qed.

Lemma patch_schedule_twice (old : option WaterSchedule) (new : WaterSchedule) :
  patch_schedule (Some (patch_schedule old new)) new = patch_schedule old new.
Proof.
  unfold patch_schedule.
  cbn [default from_option Datatypes.id Duration Interval StartTime WeatherControl].
  rewrite !patch_string_twice, patch_pointer_twice.
  destruct (WeatherControl new); now rewrite ?patch_control_twice.
Qed.

Lemma patch_details_twice (old : option ZoneDetails) (new : ZoneDetails) :
  patch_details (Some (patch_details old new)) new = patch_details old new.
Proof.
  unfold patch_details. cbn [default from_option Datatypes.id Description Notes].
  now rewrite !patch_string_twice.
Qed.

(** X16: applying the same patch a second time changes nothing. *)
Theorem Patch_twice (z p : Zone) : Patch (Patch z p) p = Patch z p.
Proof.
  unfold Patch.
  cbn [Name Details ID Position CreatedAt EndDate ZoneWaterSchedule].
  rewrite patch_string_twice, !patch_pointer_twice.
  f_equal.
  - destruct (Details p); now rewrite ?patch_details_twice.
  - destruct (EndDate z), (EndDate p); reflexivity.
  - destruct (ZoneWaterSchedule p); now rewrite ?patch_schedule_twice.
Qed.

(** X17: Patch takes over every value that the patch sets, whatever the zone
    had there, also when the zone had no schedule, no weather control or no
    details yet: a Name, Description, Notes, Duration or Interval that is not
    empty, a Position, CreatedAt or StartTime that is not nil, a BaselineValue,
    Factor or Range of the rain or temperature control that is not nil, a
    MinimumMoisture other than 0.  A struct that the patch has (Details,
    WaterSchedule, WeatherControl, Rain, SoilMoisture, Temperature) is there
    afterwards, merged field by field.  The two exceptions are the ID and the
    EndDate, which are never taken over: with an EndDate in the patch the
    EndDate of the zone stays as it was. *)
Theorem Patch_takes_over_set_fields (z p : Zone) :
  (Name p <> ""%string -> Name (Patch z p) = Name p) /\
  (forall n, Position p = Some n -> Position (Patch z p) = Some n) /\
  (forall t, CreatedAt p = Some t -> CreatedAt (Patch z p) = Some t) /\
  (Description (details_of p) <> ""%string ->
   Description (details_of (Patch z p)) = Description (details_of p)) /\
  (Notes (details_of p) <> ""%string ->
   Notes (details_of (Patch z p)) = Notes (details_of p)) /\
  (Duration (schedule_of p) <> ""%string ->
   Duration (schedule_of (Patch z p)) = Duration (schedule_of p)) /\
  (Interval (schedule_of p) <> ""%string ->
   Interval (schedule_of (Patch z p)) = Interval (schedule_of p)) /\
  (forall t, StartTime (schedule_of p) = Some t ->
   StartTime (schedule_of (Patch z p)) = Some t) /\
  (forall v, BaselineValue (rain_of p) = Some v ->
   BaselineValue (rain_of (Patch z p)) = Some v) /\
  (forall v, Factor (rain_of p) = Some v ->
   Factor (rain_of (Patch z p)) = Some v) /\
  (forall v, Range (rain_of p) = Some v ->
   Range (rain_of (Patch z p)) = Some v) /\
  (MinimumMoisture (soil_moisture_of p) <> 0 ->
   MinimumMoisture (soil_moisture_of (Patch z p)) =
   MinimumMoisture (soil_moisture_of p)) /\
  (forall v, BaselineValue (temperature_of p) = Some v ->
   BaselineValue (temperature_of (Patch z p)) = Some v) /\
  (forall v, Factor (temperature_of p) = Some v ->
   Factor (temperature_of (Patch z p)) = Some v) /\
  (forall v, Range (temperature_of p) = Some v ->
   Range (temperature_of (Patch z p)) = Some v) /\
  (is_Some (Details p) -> is_Some (Details (Patch z p))) /\
  (is_Some (ZoneWaterSchedule p) -> is_Some (ZoneWaterSchedule (Patch z p))) /\
  (is_Some (WeatherControl (schedule_of p)) ->
   is_Some (WeatherControl (schedule_of (Patch z p)))) /\
  (is_Some (Rain (control_of p)) -> is_Some (Rain (control_of (Patch z p)))) /\
  (is_Some (SoilMoisture (control_of p)) ->
   is_Some (SoilMoisture (control_of (Patch z p)))) /\
  (is_Some (Temperature (control_of p)) ->
   is_Some (Temperature (control_of (Patch z p)))) /\
  ID (Patch z p) = ID z /\
  (forall t, EndDate p = Some t -> EndDate (Patch z p) = EndDate z).
Proof.
  repeat lazymatch goal with |- _ /\ _ => split end.
  - intros H. simpl. now apply patch_string_set.
  - intros n H. simpl. now rewrite H.
  - intros t H. simpl. now rewrite H.
  - rewrite details_of_Patch. unfold details_of.
    destruct (Details p) as [det|]; simpl; [|congruence].
    intros H. now apply patch_string_set.
  - rewrite details_of_Patch. unfold details_of.
    destruct (Details p) as [det|]; simpl; [|congruence].
    intros H. now apply patch_string_set.
  - rewrite schedule_of_Patch. unfold schedule_of at 1 3.
    destruct (ZoneWaterSchedule p) as [ws|]; simpl; [|congruence].
    intros H. now apply patch_string_set.
  - rewrite schedule_of_Patch. unfold schedule_of at 1 3.
    destruct (ZoneWaterSchedule p) as [ws|]; simpl; [|congruence].
    intros H. now apply patch_string_set.
  - rewrite schedule_of_Patch. unfold schedule_of at 1.
    destruct (ZoneWaterSchedule p) as [ws|]; simpl; [|congruence].
    intros t H. now rewrite H.
  - rewrite rain_of_Patch. unfold rain_of.
    destruct (Rain (control_of p)) as [r|]; simpl; [|congruence].
    intros v H. now rewrite H.
  - rewrite rain_of_Patch. unfold rain_of.
    destruct (Rain (control_of p)) as [r|]; simpl; [|congruence].
    intros v H. now rewrite H.
  - rewrite rain_of_Patch. unfold rain_of.
    destruct (Rain (control_of p)) as [r|]; simpl; [|congruence].
    intros v H. now rewrite H.
  - rewrite soil_moisture_of_Patch. unfold soil_moisture_of.
    destruct (SoilMoisture (control_of p)) as [sm|]; simpl; [|congruence].
    intros H. unfold patch_soil_moisture.
    destruct (MinimumMoisture sm =? 0) eqn:E; [|reflexivity].
    apply Z.eqb_eq in E. contradiction.
  - rewrite temperature_of_Patch. unfold temperature_of.
    destruct (Temperature (control_of p)) as [r|]; simpl; [|congruence].
    intros v H. now rewrite H.
  - rewrite temperature_of_Patch. unfold temperature_of.
    destruct (Temperature (control_of p)) as [r|]; simpl; [|congruence].
    intros v H. now rewrite H.
  - rewrite temperature_of_Patch. unfold temperature_of.
    destruct (Temperature (control_of p)) as [r|]; simpl; [|congruence].
    intros v H. now rewrite H.
  - intros [det H]. cbn [Patch Details]. rewrite H. eauto.
  - intros [ws H]. cbn [Patch ZoneWaterSchedule]. rewrite H. eauto.
  - intros [wc H]. rewrite WeatherControl_Patch, H. eauto.
  - intros [r H]. rewrite Rain_Patch, H. eauto.
  - intros [sm H]. rewrite SoilMoisture_Patch, H. eauto.
  - intros [t H]. rewrite Temperature_Patch, H. eauto.
  - reflexivity.
  - intros t H. cbn [Patch EndDate]. rewrite H. now destruct (EndDate z).
Qed.

(** ** The nil Factor *)

(** X18: HasWeatherControl panics exactly on a zone whose schedule has a
    temperature control without Factor and neither a rain control nor a soil
    moisture control with a minimum above 0; with one of these two it returns
    true without looking at the temperature control. *)
Theorem HasWeatherControl_panics_iff (z : Zone) :
  (HasWeatherControl z = None <->
   exists ws wc t,
     ZoneWaterSchedule z = Some ws /\ WeatherControl ws = Some wc /\
     Rain wc = None /\ HasSoilMoistureControl ws = false /\
     Temperature wc = Some t /\ Factor t = None) /\
  (forall ws, ZoneWaterSchedule z = Some ws ->
     HasRainControl ws = true \/ HasSoilMoistureControl ws = true ->
     HasWeatherControl z = Some true).
Proof.
  split.
  - unfold HasWeatherControl. split.
    + destruct (ZoneWaterSchedule z) as [ws|]; [|discriminate].
      destruct (HasRainControl ws) eqn:Hr; [discriminate|].
      destruct (HasSoilMoistureControl ws) eqn:Hs; [discriminate|].
      unfold HasTemperatureControl. unfold HasRainControl in Hr.
      destruct (WeatherControl ws) as [wc|] eqn:Hwc; [|discriminate].
      destruct (Temperature wc) as [t|] eqn:Ht; [|discriminate].
      destruct (Factor t) eqn:Hf; [discriminate|]. intros _.
      exists ws, wc, t.
      assert (Rain wc = None) as Hrain.
      { destruct (Rain wc) eqn:E; [|reflexivity].
        apply bool_decide_eq_false in Hr. exfalso. apply Hr. eauto. }
      auto 10.
    + intros (ws & wc & t & -> & Hwc & Hrain & Hs & Ht & Hf).
      unfold HasRainControl, HasTemperatureControl. rewrite Hs, Hwc, Hrain, Ht, Hf.
      reflexivity.
  - intros ws Hws [H|H]; unfold HasWeatherControl; rewrite Hws, H;
      [reflexivity | now destruct (HasRainControl ws)].
Qed.

(** X19: a patch whose temperature control has no Factor, applied to a zone
    whose temperature control has none either (or that has no temperature
    control), leaves a schedule on which HasTemperatureControl panics. *)
Theorem Patch_can_leave_temperature_without_Factor (z p : Zone) (t : ScaleControl) :
  Temperature (control_of p) = Some t ->
  Factor t = None ->
  Factor (temperature_of z) = None ->
  HasTemperatureControl (schedule_of (Patch z p)) = None.
Proof.
  intros Ht Hf Hz. unfold HasTemperatureControl.
  pose proof (Temperature_Patch z p) as HT. rewrite Ht in HT.
  unfold control_of in HT at 1.
  destruct (WeatherControl (schedule_of (Patch z p))) as [wc|];
    cbn [default from_option Datatypes.id] in HT; [|discriminate].
  rewrite HT. rewrite patch_scale_Factor by exact Hf.
  fold (temperature_of z). now rewrite Hz.
Qed.

Lemma Patch_can_leave_temperature_without_Factor_witness :
  HasTemperatureControl
    (schedule_of
       (Patch (mkZone "a" None "id1" (Some 2%N) None None None)
          (mkZone "" None "" None None None
             (Some (mkWaterSchedule "" "" None
                (Some (mkControl None None
                   (Some (mkScaleControl (Some 30%Q) None None))))))))) = None.
Proof.
  apply (Patch_can_leave_temperature_without_Factor _ _
           (mkScaleControl (Some 30%Q) None None)); reflexivity.
Defined.

End Pkg.

(* ===================================================================== *)
(** * The watering decision and the scheduling engine *)
(* ===================================================================== *)
Module Worker.

(** Modelled from the spec: the worker package (ExecuteWaterAction, the
    scheduler and RemoveJobsByID) is missing from the sources; the data model
    is that of section 3 of the specification, with durations, instants and
    readings as rational numbers. *)
Record ScaleControl := mkScaleControl {
  baseline_value : Q;
  factor : Q;
  range : Q
}.

Inductive RainControl :=
| RainThreshold (threshold : Q)
| RainScale (sc : ScaleControl).

Record SoilMoistureControl := mkSoilMoistureControl {
  minimum_moisture : Q
}.

Record WeatherControl := mkWeatherControl {
  rain : option RainControl;
  temperature : option ScaleControl;
  soil_moisture : option SoilMoistureControl
}.

Record WaterSchedule := mkWaterSchedule {
  identifier : string;
  interval : Q;
  duration : Q;
  start_time : Q;
  weather_control : option WeatherControl
}.

Record Job := mkJob {
  next_fire : Q;
  job_interval : Q
}.

(** The collaborators of section 6: [get_moisture(valve_id)],
    [get_total_rain(window)] and [get_average_high_temperature(window)] over
    the fixed window, each fallible. *)
Record Readings := mkReadings {
  get_moisture : Z -> result Q;
  get_total_rain : result Q;
  get_average_high_temperature : result Q
}.

Inductive Decision :=
| Skip
| Proceed (d : Q).

(** The payload [{valve_id, duration, id}] of a water command. *)
Record Command := mkCommand {
  valve_id : Z;
  command_duration : Q;
  correlation_id : string
}.

Section Evaluator.

(** The upper bound of the clamp, which the specification leaves open. *)
Variable upper_bound : Q.

(** Modelled from the spec: the soil-moisture control counts as present the
    way HasSoilMoistureControl of the Zone has it, with a minimum above 0. *)
Definition soil_moisture_minimum (ws : WaterSchedule) : option Q :=
  wc ← weather_control ws;
  sm ← soil_moisture wc;
  if Qle_bool (minimum_moisture sm) 0 then None else Some (minimum_moisture sm).

Definition rain_control (ws : WaterSchedule) : option RainControl :=
  wc ← weather_control ws; rain wc.

Definition temperature_control (ws : WaterSchedule) : option ScaleControl :=
  wc ← weather_control ws; temperature wc.

(** Modelled from the spec: step 3 of section 4.2,
    [clamp(1 + factor * (observed - baseline) / range, 0, upper_bound)]. *)
Definition clamp (x lo hi : Q) : Q := Qmin (Qmax x lo) hi.

Definition scale (sc : ScaleControl) (observed : Q) : Q :=
  clamp (1 + factor sc * (observed - baseline_value sc) / range sc) 0 upper_bound.

(** Modelled from the spec: step 1 of section 4.2; [true] is skip. *)
Definition moisture_step (ws : WaterSchedule) (valve : Z) (r : Readings)
  : result bool :=
  match soil_moisture_minimum ws with
  | Some minimum =>
      reading ← get_moisture r valve;
      Ok (Qle_bool minimum reading)
  | None => Ok false
  end.

(** Modelled from the spec: steps 2 and 3 for the rain control; [None] is
    skip, [Some s] a factor for the duration. *)
Definition rain_step (ws : WaterSchedule) (r : Readings) : result (option Q) :=
  match rain_control ws with
  | Some (RainThreshold threshold) =>
      observed ← get_total_rain r;
      Ok (if Qle_bool threshold observed then None else Some 1%Q)
  | Some (RainScale sc) =>
      observed ← get_total_rain r;
      Ok (Some (scale sc observed))
  | None => Ok (Some 1%Q)
  end.

Definition temperature_step (ws : WaterSchedule) (r : Readings) : result Q :=
  match temperature_control ws with
  | Some sc =>
      observed ← get_average_high_temperature r;
      Ok (scale sc observed)
  | None => Ok 1%Q
  end.

(** Modelled from the spec: the Weather Adjustment Evaluator of section 4.2. *)
Definition evaluate (ws : WaterSchedule) (valve : Z) (r : Readings)
  : result Decision :=
  skip ← moisture_step ws valve r;
  if skip : bool then Ok Skip
  else
    rain_factor ← rain_step ws r;
    match rain_factor with
    | None => Ok Skip
    | Some s_rain =>
        s_temperature ← temperature_step ws r;
        Ok (Proceed (duration ws * s_rain * s_temperature))
    end.

(** Modelled from the spec: the Command Dispatcher of section 4.3 and the
    "on fire" path of section 4.1 up to it: what the caller is told, and the
    commands published.  [transport] is what a publish attempt returns. *)
Definition Dispatch (valve : Z) (d : Q) (id : string) (transport : result unit)
  : result unit * list Command :=
  if Qeq_bool d 0 then (Ok tt, [])
  else match transport with
       | Ok _ => (Ok tt, [mkCommand valve d id])
       | Err e => (Err e, [])
       end.

Definition ExecuteWaterAction (ws : WaterSchedule) (valve : Z) (r : Readings)
    (transport : result unit) : result unit * list Command :=
  match evaluate ws valve r with
  | Err e => (Err e, [])
  | Ok Skip => (Ok tt, [])
  | Ok (Proceed d) => Dispatch valve d (identifier ws) transport
  end.

(** Modelled from the spec: the Scheduling Engine of section 4.1 with its Job
    Table, the commands it has published and the errors it has logged. *)
Record Engine := mkEngine {
  jobs : gmap string Job;
  sent : list Command;
  logged : list string
}.

Definition errors_of (res : result unit) : list string :=
  match res with Ok _ => [] | Err e => [e] end.

(** Modelled from the spec: a fire runs the action and moves the next fire to
    the missed instant plus the interval; errors are logged and the Job
    stays. *)
Definition fire (ws : WaterSchedule) (valve : Z) (r : Readings)
    (transport : result unit) (e : Engine) : Engine :=
  match jobs e !! identifier ws with
  | Some j =>
      let '(res, commands) := ExecuteWaterAction ws valve r transport in
      mkEngine (<[identifier ws := mkJob (next_fire j + job_interval j) (job_interval j)]>
                  (jobs e))
               (sent e ++ commands)
               (logged e ++ errors_of res)
  | None => e
  end.

(** ** Properties of the watering decision *)

(** A reading that the evaluation consults fails with [e]. *)
Inductive read_fails (ws : WaterSchedule) (valve : Z) (r : Readings) (e : string)
  : Prop :=
| moisture_fails (minimum : Q) :
    soil_moisture_minimum ws = Some minimum ->
    get_moisture r valve = Err e ->
    read_fails ws valve r e
| rain_fails (rc : RainControl) :
    moisture_step ws valve r = Ok false ->
    rain_control ws = Some rc ->
    get_total_rain r = Err e ->
    read_fails ws valve r e
| temperature_fails (sc : ScaleControl) (s_rain : Q) :
    moisture_step ws valve r = Ok false ->
    rain_step ws r = Ok (Some s_rain) ->
    temperature_control ws = Some sc ->
    get_average_high_temperature r = Err e ->
    read_fails ws valve r e.

Lemma soil_moisture_minimum_positive (ws : WaterSchedule)
    (wc : WeatherControl) (sm : SoilMoistureControl) :
  weather_control ws = Some wc -> soil_moisture wc = Some sm ->
  (0 < minimum_moisture sm)%Q ->
  soil_moisture_minimum ws = Some (minimum_moisture sm).
Proof.
  intros Hwc Hsm Hpos. unfold soil_moisture_minimum. rewrite Hwc. simpl.
  rewrite Hsm. simpl.
  destruct (Qle_bool (minimum_moisture sm) 0) eqn:E; [|reflexivity].
  apply Qle_bool_iff in E. exfalso. eapply Qlt_not_le; eauto.
Qed.

Lemma moisture_step_skips (ws : WaterSchedule) (valve : Z) (r : Readings)
    (minimum reading : Q) :
  soil_moisture_minimum ws = Some minimum ->
  get_moisture r valve = Ok reading ->
  moisture_step ws valve r = Ok (Qle_bool minimum reading).
Proof. intros Hm Hr. unfold moisture_step. now rewrite Hm, Hr. Qed.

Lemma evaluate_moisture_skip (ws : WaterSchedule) (valve : Z) (r : Readings) :
  moisture_step ws valve r = Ok true -> evaluate ws valve r = Ok Skip.
Proof. intros H. unfold evaluate. now rewrite H. Qed.

Lemma evaluate_moisture_error (ws : WaterSchedule) (valve : Z) (r : Readings)
    (e : string) :
  moisture_step ws valve r = Err e -> evaluate ws valve r = Err e.
Proof. intros H. unfold evaluate. now rewrite H. Qed.

Lemma evaluate_after_moisture (ws : WaterSchedule) (valve : Z) (r : Readings) :
  moisture_step ws valve r = Ok false ->
  evaluate ws valve r =
  (rain_factor ← rain_step ws r;
   match rain_factor with
   | None => Ok Skip
   | Some s_rain =>
       s_temperature ← temperature_step ws r;
       Ok (Proceed (duration ws * s_rain * s_temperature))
   end).
Proof. intros H. unfold evaluate. now rewrite H. Qed.

Lemma rain_threshold_skips (ws : WaterSchedule) (r : Readings)
    (threshold observed : Q) :
  rain_control ws = Some (RainThreshold threshold) ->
  get_total_rain r = Ok observed ->
  (threshold <= observed)%Q ->
  rain_step ws r = Ok None.
Proof.
  intros Hc Hr Hle. unfold rain_step. rewrite Hc, Hr. simpl.
  apply Qle_bool_iff in Hle. now rewrite Hle.
Qed.

Lemma ExecuteWaterAction_skip (ws : WaterSchedule) (valve : Z) (r : Readings)
    (transport : result unit) :
  evaluate ws valve r = Ok Skip ->
  ExecuteWaterAction ws valve r transport = (Ok tt, []).
Proof. intros H. unfold ExecuteWaterAction. now rewrite H. Qed.

Lemma ExecuteWaterAction_error (ws : WaterSchedule) (valve : Z) (r : Readings)
    (transport : result unit) (e : string) :
  evaluate ws valve r = Err e ->
  ExecuteWaterAction ws valve r transport = (Err e, []).
Proof. intros H. unfold ExecuteWaterAction. now rewrite H. Qed.

Lemma read_fails_evaluate (ws : WaterSchedule) (valve : Z) (r : Readings)
    (e : string) :
  read_fails ws valve r e -> evaluate ws valve r = Err e.
Proof.
  intros [minimum Hm Hr | rc Hstep Hc Hr | sc s_rain Hstep Hrain Hc Hr].
  - apply evaluate_moisture_error. unfold moisture_step. now rewrite Hm, Hr.
  - rewrite (evaluate_after_moisture _ _ _ Hstep). unfold rain_step.
    rewrite Hc, Hr. now destruct rc.
  - rewrite (evaluate_after_moisture _ _ _ Hstep). rewrite Hrain. simpl.
    unfold temperature_step. now rewrite Hc, Hr.
Qed.

(** C3 (against the modelled evaluator): with a soil-moisture control of
    minimum M > 0 and a reading of at least M the action is a skip and nothing
    is published, whatever the rain and temperature controls are; with a
    reading below M and neither a rain nor a temperature control the decision
    is to proceed with the nominal duration, and the command of that duration
    is published when the duration is not 0 and the publish succeeds. *)
Theorem soil_moisture_skip_takes_precedence
    (ws : WaterSchedule) (wc : WeatherControl) (sm : SoilMoistureControl)
    (valve : Z) (r : Readings) (reading : Q) (transport : result unit) :
  weather_control ws = Some wc ->
  soil_moisture wc = Some sm ->
  (0 < minimum_moisture sm)%Q ->
  get_moisture r valve = Ok reading ->
  ((minimum_moisture sm <= reading)%Q ->
   evaluate ws valve r = Ok Skip /\
   ExecuteWaterAction ws valve r transport = (Ok tt, [])) /\
  ((reading < minimum_moisture sm)%Q ->
   rain wc = None -> temperature wc = None ->
   exists d, (d == duration ws)%Q /\
     evaluate ws valve r = Ok (Proceed d) /\
     (~ (duration ws == 0)%Q -> transport = Ok tt ->
      ExecuteWaterAction ws valve r transport =
        (Ok tt, [mkCommand valve d (identifier ws)]))).
Proof.
  intros Hwc Hsm Hpos Hread.
  pose proof (soil_moisture_minimum_positive _ _ _ Hwc Hsm Hpos) as Hmin.
  pose proof (moisture_step_skips _ _ _ _ _ Hmin Hread) as Hstep.
  split.
  - intros Hle. apply Qle_bool_iff in Hle. rewrite Hle in Hstep.
    pose proof (evaluate_moisture_skip _ _ _ Hstep) as Hev.
    split; [exact Hev | now apply ExecuteWaterAction_skip].
  - intros Hlt Hrain Htemp.
    assert (Qle_bool (minimum_moisture sm) reading = false) as Hb.
    { destruct (Qle_bool (minimum_moisture sm) reading) eqn:E; [|reflexivity].
      apply Qle_bool_iff in E. exfalso. eapply Qlt_not_le; eauto. }
    rewrite Hb in Hstep.
    assert (evaluate ws valve r = Ok (Proceed (duration ws * 1 * 1))) as Hev.
    { rewrite (evaluate_after_moisture _ _ _ Hstep).
      unfold rain_step, temperature_step, rain_control, temperature_control.
      rewrite Hwc. simpl. rewrite Hrain, Htemp. reflexivity. }
    exists (duration ws * 1 * 1)%Q. split; [ring|]. split; [exact Hev|].
    intros Hnz ->. unfold ExecuteWaterAction. rewrite Hev. unfold Dispatch.
    destruct (Qeq_bool (duration ws * 1 * 1) 0) eqn:E; [|reflexivity].
    apply Qeq_bool_iff in E. exfalso. apply Hnz. rewrite <- E. ring.
Qed.

(** C6 (against the modelled evaluator): with a rain control in threshold
    form and a total rain of at least the threshold, threshold included,
    nothing is published; the evaluation returns skip whenever the moisture
    step before it has not failed, and when that step fails the evaluation
    returns its error instead of skip. *)
Theorem rain_threshold_is_inclusive
    (ws : WaterSchedule) (valve : Z) (r : Readings) (threshold observed : Q)
    (transport : result unit) :
  rain_control ws = Some (RainThreshold threshold) ->
  get_total_rain r = Ok observed ->
  (threshold <= observed)%Q ->
  snd (ExecuteWaterAction ws valve r transport) = [] /\
  (forall skip, moisture_step ws valve r = Ok skip ->
     evaluate ws valve r = Ok Skip /\
     ExecuteWaterAction ws valve r transport = (Ok tt, [])) /\
  (forall e, moisture_step ws valve r = Err e ->
     evaluate ws valve r = Err e /\
     ExecuteWaterAction ws valve r transport = (Err e, [])).
Proof.
  intros Hc Hr Hle.
  pose proof (rain_threshold_skips _ _ _ _ Hc Hr Hle) as Hrain.
  assert (forall skip, moisture_step ws valve r = Ok skip ->
            evaluate ws valve r = Ok Skip) as Hev.
  { intros [|] Hstep; [now apply evaluate_moisture_skip|].
    rewrite (evaluate_after_moisture _ _ _ Hstep). now rewrite Hrain. }
  split; [|split].
  - destruct (moisture_step ws valve r) as [skip|e] eqn:Hstep.
    + now rewrite (ExecuteWaterAction_skip _ _ _ _ (Hev skip eq_refl)).
    + now rewrite (ExecuteWaterAction_error _ _ _ _ _
                     (evaluate_moisture_error _ _ _ _ Hstep)).
  - intros skip Hstep. split; [exact (Hev skip Hstep)|].
    apply ExecuteWaterAction_skip. exact (Hev skip Hstep).
  - intros e Hstep.
    pose proof (evaluate_moisture_error _ _ _ _ Hstep) as He.
    split; [exact He | now apply ExecuteWaterAction_error].
Qed.

(** C7 (against the modelled evaluator and engine): when a moisture, rain or
    temperature reading that the evaluation consults fails, the action
    publishes nothing and returns the error to its caller; the engine logs it,
    keeps the Job of the schedule with its interval, moves its next fire by
    one interval and leaves the other Jobs alone. *)
Theorem reading_failure_skips_the_cycle
    (ws : WaterSchedule) (valve : Z) (r : Readings) (e : string)
    (transport : result unit) (en : Engine) (j : Job) :
  read_fails ws valve r e ->
  jobs en !! identifier ws = Some j ->
  ExecuteWaterAction ws valve r transport = (Err e, []) /\
  sent (fire ws valve r transport en) = sent en /\
  logged (fire ws valve r transport en) = logged en ++ [e] /\
  jobs (fire ws valve r transport en) !! identifier ws =
    Some (mkJob (next_fire j + job_interval j) (job_interval j)) /\
  (forall other, other <> identifier ws ->
     jobs (fire ws valve r transport en) !! other = jobs en !! other).
Proof.
  intros Hfail Hjob.
  pose proof (ExecuteWaterAction_error _ _ _ transport _
                (read_fails_evaluate _ _ _ _ Hfail)) as Hex.
  split; [exact Hex|]. unfold fire. rewrite Hjob, Hex. simpl.
  split; [apply app_nil_r|]. split; [reflexivity|]. split.
  - apply lookup_insert_eq.
  - intros other Hne. now apply lookup_insert_ne.
Qed.

End Evaluator.

(** The schedules of the tests of ExecuteWaterAction: a minimum moisture of
    50, a rain threshold of 25.4 mm, a nominal duration of 1000 ms. *)
Definition soil_control_50 : WeatherControl :=
  mkWeatherControl None None (Some (mkSoilMoistureControl 50)).
Definition rain_threshold_25_4 : WeatherControl :=
  mkWeatherControl (Some (RainThreshold (254 # 10))) None None.
Definition soil_and_rain : WeatherControl :=
  mkWeatherControl (Some (RainThreshold (254 # 10))) None
                   (Some (mkSoilMoistureControl 50)).

Definition schedule_with (wc : WeatherControl) : WaterSchedule :=
  mkWaterSchedule "ws" (86400000 # 1) 1000 0 (Some wc).

Definition readings (moisture rain : result Q) : Readings :=
  mkReadings (fun _ => moisture) rain (Ok (25 # 1)).

(** C3 as stated fails in its last part: with a reading of 49 below the
    minimum of 50, and 25.4 mm of rain against a threshold of 25.4 mm, the
    action succeeds and publishes no command. *)
Lemma moisture_below_minimum_may_still_skip :
  soil_moisture_minimum (schedule_with soil_and_rain) = Some (50 # 1) /\
  (49 < 50)%Q /\
  ExecuteWaterAction 2 (schedule_with soil_and_rain) 0
    (readings (Ok (49 # 1)) (Ok (254 # 10))) (Ok tt) = (Ok tt, []).
Proof. split; [reflexivity|]. split; reflexivity. Qed.

Lemma soil_moisture_skip_takes_precedence_witness :
  ExecuteWaterAction 2 (schedule_with soil_and_rain) 0
    (readings (Ok (51 # 1)) (Ok 0%Q)) (Ok tt) = (Ok tt, []) /\
  exists d, (d == 1000)%Q /\
    ExecuteWaterAction 2 (schedule_with soil_control_50) 0
      (readings (Ok (49 # 1)) (Ok 0%Q)) (Ok tt) =
    (Ok tt, [mkCommand 0 d "ws"]).
Proof.
  split.
  - apply (soil_moisture_skip_takes_precedence 2 (schedule_with soil_and_rain)
             soil_and_rain (mkSoilMoistureControl 50) 0
             (readings (Ok (51 # 1)) (Ok 0%Q)) (51 # 1) (Ok tt));
      try reflexivity.
    unfold Qle. simpl. lia.
  - destruct (soil_moisture_skip_takes_precedence 2 (schedule_with soil_control_50)
                soil_control_50 (mkSoilMoistureControl 50) 0
                (readings (Ok (49 # 1)) (Ok 0%Q)) (49 # 1) (Ok tt))
      as [_ Hbelow]; try reflexivity.
    destruct Hbelow as (d & Hd & _ & Hpub); try reflexivity.
    exists d. split; [exact Hd|]. apply Hpub; [|reflexivity].
    unfold Qeq. simpl. lia.
Defined.

(** C6 as stated fails: with a minimum moisture of 50 beside the rain
    threshold, a moisture reading that fails and 25.4 mm of rain against the
    threshold of 25.4 mm, the evaluation returns the error of the reading and
    not skip. *)
Lemma rain_at_threshold_with_failing_moisture_read :
  rain_control (schedule_with soil_and_rain) = Some (RainThreshold (254 # 10)) /\
  get_total_rain (readings (Err "influxdb error") (Ok (254 # 10))) = Ok (254 # 10) /\
  (254 # 10 <= 254 # 10)%Q /\
  evaluate 2 (schedule_with soil_and_rain) 0
    (readings (Err "influxdb error") (Ok (254 # 10))) = Err "influxdb error" /\
  ExecuteWaterAction 2 (schedule_with soil_and_rain) 0
    (readings (Err "influxdb error") (Ok (254 # 10))) (Ok tt) =
    (Err "influxdb error", []).
Proof.
  split; [reflexivity|]. split; [reflexivity|].
  split; [unfold Qle; simpl; lia|]. split; reflexivity.
Qed.

Lemma rain_threshold_is_inclusive_witness :
  evaluate 2 (schedule_with rain_threshold_25_4) 0
    (readings (Ok 0%Q) (Ok (254 # 10))) = Ok Skip /\
  ExecuteWaterAction 2 (schedule_with rain_threshold_25_4) 0
    (readings (Ok 0%Q) (Ok (254 # 10))) (Ok tt) = (Ok tt, []).
Proof.
  destruct (rain_threshold_is_inclusive 2 (schedule_with rain_threshold_25_4) 0
              (readings (Ok 0%Q) (Ok (254 # 10))) (254 # 10) (254 # 10) (Ok tt))
    as [_ [H _]]; try reflexivity.
  - unfold Qle. simpl. lia.
  - exact (H false eq_refl).
Defined.

Definition one_job : Engine :=
  mkEngine {[ "ws"%string := mkJob 0 (86400000 # 1) ]} [] [].

Lemma reading_failure_skips_the_cycle_witness :
  ExecuteWaterAction 2 (schedule_with soil_control_50) 0
    (readings (Err "influxdb error") (Ok 0%Q)) (Ok tt) = (Err "influxdb error", []) /\
  logged (fire 2 (schedule_with soil_control_50) 0
            (readings (Err "influxdb error") (Ok 0%Q)) (Ok tt) one_job)
    = ["influxdb error"%string].
Proof.
  destruct (reading_failure_skips_the_cycle 2 (schedule_with soil_control_50) 0
              (readings (Err "influxdb error") (Ok 0%Q)) "influxdb error" (Ok tt)
              one_job (mkJob 0 (86400000 # 1))) as (H1 & _ & H3 & _).
  - apply moisture_fails with (minimum := 50 # 1); reflexivity.
  - reflexivity.
  - split; [exact H1 | exact H3].
Defined.


End Worker.

(* ===================================================================== *)
(** * Deleting a WaterSchedule *)
(* ===================================================================== *)
Module Server.

Definition Time : Type := Z.

(** The fields of [pkg.Garden] and [pkg.Zone] that
    GetZonesUsingWaterSchedule reads; an [xid.ID] is the string that its
    [String()] returns. *)
Module Garden.
Record t := mk {
  ID : string;
  EndDate : option Time
}.
(** As [Zone.EndDated]: [EndDate != nil && EndDate.Before(time.Now())]. *)
Definition EndDated (now : Time) (g : t) : bool :=
  match EndDate g with Some end_date => end_date <? now | None => false end.
End Garden.

Module Zone.
Record t := mk {
  ID : string;
  GardenID : string;
  EndDate : option Time;
  WaterScheduleIDs : list string
}.
Definition EndDated (now : Time) (z : t) : bool :=
  match EndDate z with Some end_date => end_date <? now | None => false end.
End Zone.

Definition ZoneAndGarden : Type := Zone.t * Garden.t.

(** A [babyapi.Storage]: what it holds, or the error that reading it returns. *)
Definition Storage (T : Type) : Type := result (list T).

Definition GetAll {T} (storage : Storage T) (keep : T -> bool) : result (list T) :=
  items ← storage; Ok (List.filter keep items).

Record Client := mkClient {
  Gardens : Storage Garden.t;
  Zones : Storage Zone.t
}.

(** Modelled from the spec: [storage.FilterEndDated] is missing from the
    sources; as the getEndDated flag of GetMultiple, it keeps a resource when
    the flag is set or the resource is not end-dated. *)
Definition FilterEndDated (getEndDated : bool) (now : Time) (g : Garden.t) : bool :=
  getEndDated || negb (Garden.EndDated now g).

(** [%q] *)
Definition quoted (s : string) : string :=
  String "034"%char (s +:+ String "034"%char EmptyString).

(** The two inner loops of GetZonesUsingWaterSchedule: one result for every
    occurrence of [id] among the WaterScheduleIDs of a zone. *)
Definition zones_using (id : string) (g : Garden.t) (zones : list Zone.t)
  : list ZoneAndGarden :=
  flat_map (fun z =>
    flat_map (fun wsID => if String.eqb wsID id then [(z, g)] else [])
             (Zone.WaterScheduleIDs z)) zones.

(** The loop over the gardens; it returns at the first error. *)
Fixpoint for_gardens (c : Client) (now : Time) (id : string)
    (gardens : list Garden.t) (results : list ZoneAndGarden)
  : result (list ZoneAndGarden) :=
  match gardens with
  | [] => Ok results
  | g :: gardens =>
      zones ← wrap ("unable to get all Zones for Garden " +:+ quoted (Garden.ID g))
                (GetAll (Zones c) (fun z =>
                   String.eqb (Zone.GardenID z) (Garden.ID g) &&
                   negb (Zone.EndDated now z)));
      for_gardens c now id gardens (results ++ zones_using id g zones)
  end.

Definition GetZonesUsingWaterSchedule (c : Client) (now : Time) (id : string)
  : result (list ZoneAndGarden) :=
  gardens ← wrap "unable to get all Gardens"
              (GetAll (Gardens c) (FilterEndDated false now));
  for_gardens c now id gardens [].




Record State := mkState {
  client : Client;
  schedules : gmap string Worker.WaterSchedule;
  scheduled : gmap string Worker.Job
}.

Section Delete.

(** [Storage.Delete] of the WaterSchedule storage. *)
Variable Storage_Delete :
  string -> gmap string Worker.WaterSchedule ->
  result (gmap string Worker.WaterSchedule).


(** ** The check before the deletion *)

Definition zone_of_garden (now : Time) (g : Garden.t) (z : Zone.t) : bool :=
  String.eqb (Zone.GardenID z) (Garden.ID g) && negb (Zone.EndDated now z).

Lemma for_gardens_ok (c : Client) (now : Time) (id : string)
    (zones : list Zone.t) (gardens : list Garden.t) :
  Zones c = Ok zones ->
  forall results,
    for_gardens c now id gardens results =
    Ok (results ++
        flat_map (fun g => zones_using id g (List.filter (zone_of_garden now g) zones))
                 gardens).
Proof.
  intros Hz. induction gardens as [|g gardens IH]; intros results; simpl.
  - now rewrite app_nil_r.
  - unfold GetAll. rewrite Hz. simpl. rewrite IH. now rewrite <- app_assoc.
Qed.






(** ** What GetZonesUsingWaterSchedule returns *)

Lemma zones_using_spec (id : string) (g g' : Garden.t) (zones : list Zone.t)
    (z : Zone.t) :
  In (z, g') (zones_using id g zones) <->
  g' = g /\ In z zones /\ In id (Zone.WaterScheduleIDs z).
Proof.
  unfold zones_using. rewrite in_flat_map. split.
  - intros (z0 & Hz0 & Hin). apply in_flat_map in Hin as (wsID & Hws & Hin).
    destruct (String.eqb_spec wsID id) as [->|]; [|contradiction].
    destruct Hin as [[= -> ->]|[]]. auto.
  - intros (-> & Hz & Hid). exists z. split; [exact Hz|].
    apply in_flat_map. exists id. split; [exact Hid|].
    rewrite String.eqb_refl. now left.
Qed.

Lemma for_gardens_Err (c : Client) (now : Time) (id e : string)
    (g : Garden.t) (gardens : list Garden.t) (results : list ZoneAndGarden) :
  Zones c = Err e ->
  for_gardens c now id (g :: gardens) results =
  Err ("unable to get all Zones for Garden " +:+ quoted (Garden.ID g) +:+ ": " +:+ e).
Proof. intros H. cbn [for_gardens]. unfold GetAll. now rewrite H. Qed.

(** X20: when the Gardens and the Zones can be read, GetZonesUsingWaterSchedule
    returns a Zone with a Garden exactly when the Garden is among those that
    GetAll with FilterEndDated(false) gives, the Zone is stored with the ID of
    that Garden as its GardenID, the Zone is not end-dated, and the identifier
    is among its WaterScheduleIDs. *)
Theorem GetZonesUsingWaterSchedule_returns_exactly
    (c : Client) (now : Time) (id : string)
    (live : list Garden.t) (zones : list Zone.t) :
  GetAll (Gardens c) (FilterEndDated false now) = Ok live ->
  Zones c = Ok zones ->
  exists results,
    GetZonesUsingWaterSchedule c now id = Ok results /\
    forall z g,
      In (z, g) results <->
      In g live /\ In z zones /\ Zone.GardenID z = Garden.ID g /\
      Zone.EndDated now z = false /\ In id (Zone.WaterScheduleIDs z).
Proof.
  intros Hg Hz. unfold GetZonesUsingWaterSchedule. rewrite Hg.
  cbn [wrap mbind result_bind]. rewrite (for_gardens_ok c now id zones live Hz).
  eexists. split; [reflexivity|]. intros z g. cbn [app]. rewrite in_flat_map. split.
  - intros (g0 & Hg0 & Hin). apply zones_using_spec in Hin as (-> & Hin & Hid).
    apply filter_In in Hin as [Hin Hkeep]. unfold zone_of_garden in Hkeep.
    apply andb_prop in Hkeep as [Heq Hend].
    apply String.eqb_eq in Heq. apply negb_true_iff in Hend. auto.
  - intros (Hlive & Hin & Hgid & Hend & Hid). exists g. split; [exact Hlive|].
    apply zones_using_spec. split; [reflexivity|]. split; [|exact Hid].
    apply filter_In. split; [exact Hin|]. unfold zone_of_garden.
    rewrite Hgid, String.eqb_refl, Hend. reflexivity.
Qed.

(** X21: GetZonesUsingWaterSchedule reads the Zones only for a Garden that the
    first GetAll returned: an error of the Gardens storage is returned with the
    prefix of the Gardens, with no Garden returned the result is empty also
    when the Zones cannot be read, and otherwise an error of the Zones storage
    is returned with the ID of the first Garden. *)
Theorem GetZonesUsingWaterSchedule_errors (c : Client) (now : Time) (id : string) :
  (forall e, GetAll (Gardens c) (FilterEndDated false now) = Err e ->
     GetZonesUsingWaterSchedule c now id =
     Err ("unable to get all Gardens: " +:+ e)) /\
  (GetAll (Gardens c) (FilterEndDated false now) = Ok [] ->
     GetZonesUsingWaterSchedule c now id = Ok []) /\
  (forall g live e,
     GetAll (Gardens c) (FilterEndDated false now) = Ok (g :: live) ->
     Zones c = Err e ->
     GetZonesUsingWaterSchedule c now id =
     Err ("unable to get all Zones for Garden " +:+ quoted (Garden.ID g) +:+
          ": " +:+ e)).
Proof.
  unfold GetZonesUsingWaterSchedule. split; [|split].
  - intros e ->. reflexivity.
  - intros ->. reflexivity.
  - intros g live e -> He. cbn [wrap mbind result_bind].
    now apply for_gardens_Err.
Qed.

End Delete.

(** ** weatherClientsExist *)

Section WeatherClients.

(** The ClientID field of a scale control, and [Get] of the storage in which
    weatherClientExists looks the identifier up: [storageClient.WaterSchedules]. *)
Variable ClientID : Pkg.ScaleControl -> string.
Variable Stored : Type.
Variable WaterSchedules_Get : string -> result Stored.





End WeatherClients.


Definition schedule_ws1 : Worker.WaterSchedule :=
  Worker.mkWaterSchedule "ws1" (86400000 # 1) 1000 0 None.

Definition state_with (g : Garden.t) : State :=
  mkState (mkClient (Ok [g]) (Ok [Zone.mk "z1" "g1" None ["ws1"%string]]))
          {[ "ws1"%string := schedule_ws1 ]}
          {[ "ws1"%string := Worker.mkJob 0 (86400000 # 1) ]}.



Lemma GetZonesUsingWaterSchedule_returns_exactly_witness :
  exists results,
    GetZonesUsingWaterSchedule (client (state_with (Garden.mk "g1" None))) 10 "ws1"
      = Ok results /\
    forall z g,
      In (z, g) results <->
      In g [Garden.mk "g1" None] /\
      In z [Zone.mk "z1" "g1" None ["ws1"%string]] /\
      Zone.GardenID z = Garden.ID g /\
      Zone.EndDated 10 z = false /\ In "ws1"%string (Zone.WaterScheduleIDs z).
Proof.
  apply (GetZonesUsingWaterSchedule_returns_exactly
           (client (state_with (Garden.mk "g1" None))) 10 "ws1"
           [Garden.mk "g1" None] [Zone.mk "z1" "g1" None ["ws1"%string]]);
    reflexivity.
Defined.

End Server.

(* ===================================================================== *)
(** * The generic storage functions *)
(* ===================================================================== *)
Module Storage.

Definition bytes : Type := string.

(** What [c.db.Get(key)] returns: the data, the error [hord.ErrNil] itself
    (the only error for which [errors.Is(hord.ErrNil, err)] holds), or another
    error with its text. *)
Inductive GetResult :=
| Data (dataBytes : bytes)
| ErrNil
| Failed (e : string).

Section Generic.

(** The type parameter with its [EndDated] method, [c.unmarshal], and the
    methods of the [hord.Database] behind [c.db]. *)
Variable T : Type.
Variable EndDated : T -> bool.
Variable unmarshal : bytes -> result T.
Variable Database : Type.
Variable db_Get : Database -> string -> GetResult.
Variable db_Keys : Database -> result (list string).

(** [c.db], which may be nil. *)
Record Client := mkClient {
  db : option Database
}.

(** [GetOne]: [Ok None] is [nil, nil]. *)
Definition GetOne (c : Client) (key : string) : result (option T) :=
  match db c with
  | None => Err "error missing database connection"
  | Some d =>
      match db_Get d key with
      | ErrNil => Ok None
      | Failed e => Err ("error getting data: " +:+ e)
      | Data dataBytes =>
          match unmarshal dataBytes with
          | Err e => Err ("error parsing data: " +:+ e)
          | Ok r => Ok (Some r)
          end
      end
  end.

(** The loop of [GetMultiple] over the keys. *)
Fixpoint GetMultiple_keys (c : Client) (getEndDated : bool) (prefix : string)
    (keys : list string) (results : list T) : result (list T) :=
  match keys with
  | [] => Ok results
  | key :: keys =>
      if negb (String.prefix prefix key)
      then GetMultiple_keys c getEndDated prefix keys results
      else
        match GetOne c key with
        | Err e => Err ("error getting data: " +:+ e)
        | Ok None => GetMultiple_keys c getEndDated prefix keys results
        | Ok (Some r) =>
            if getEndDated || negb (EndDated r)
            then GetMultiple_keys c getEndDated prefix keys (results ++ [r])
            else GetMultiple_keys c getEndDated prefix keys results
        end
  end.

(** [GetMultiple]; it calls [c.db.Keys()] without the test for nil that GetOne
    has: [None] is that panic. *)
Definition GetMultiple (c : Client) (getEndDated : bool) (prefix : string)
  : option (result (list T)) :=
  match db c with
  | None => None
  | Some d =>
      Some (keys ← wrap "error getting keys" (db_Keys d);
            GetMultiple_keys c getEndDated prefix keys [])
  end.

(** ** Properties *)

Definition wanted (c : Client) (getEndDated : bool) (prefix : string)
    (keys : list string) (x : T) : Prop :=
  exists key, In key keys /\ String.prefix prefix key = true /\
              GetOne c key = Ok (Some x) /\
              (getEndDated || negb (EndDated x)) = true.

Lemma GetMultiple_keys_In (c : Client) (getEndDated : bool) (prefix : string)
    (keys : list string) : forall results found,
  GetMultiple_keys c getEndDated prefix keys results = Ok found ->
  forall x, In x found <-> In x results \/ wanted c getEndDated prefix keys x.
Proof.
  induction keys as [|key keys IH]; intros results found H x;
    cbn [GetMultiple_keys] in H.
  - injection H as <-. split; [auto|]. intros [H|(key & [] & _)]. exact H.
  - assert (forall res, (In x res \/ wanted c getEndDated prefix keys x) ->
                        In x res \/ wanted c getEndDated prefix (key :: keys) x)
      as Hmono.
    { intros res [Hin|(k & Hk & Hrest)]; [now left|].
      right. exists k. split; [now right | exact Hrest]. }
    destruct (String.prefix prefix key) eqn:Hp; cbn [negb] in H.
    + destruct (GetOne c key) as [[r|]|e] eqn:Hone; [| |discriminate].
      * destruct (getEndDated || negb (EndDated r)) eqn:Hkeep.
        -- rewrite (IH _ _ H x), in_app_iff. split.
           ++ intros [[Hin|[<-|[]]]|Hw]; [now left| |now apply Hmono; right].
              right. exists key. split; [now left|]. auto.
           ++ intros [Hin|(k & [<-|Hk] & Hpk & Hget & Hk2)]; [now left; left| |].
              ** left. right. left. congruence.
              ** right. exists k. auto.
        -- rewrite (IH _ _ H x). split; [apply Hmono|].
           intros [Hin|(k & [<-|Hk] & Hpk & Hget & Hk2)]; [now left| |].
           ++ congruence.
           ++ right. exists k. auto.
      * rewrite (IH _ _ H x). split; [apply Hmono|].
        intros [Hin|(k & [<-|Hk] & Hpk & Hget & Hk2)]; [now left| |].
        -- congruence.
        -- right. exists k. auto.
    + rewrite (IH _ _ H x). split; [apply Hmono|].
      intros [Hin|(k & [<-|Hk] & Hpk & Hget & Hk2)]; [now left| |].
      * congruence.
      * right. exists k. auto.
Qed.

Lemma GetMultiple_keys_Ok_iff (c : Client) (getEndDated : bool) (prefix : string)
    (keys : list string) : forall results,
  (exists found, GetMultiple_keys c getEndDated prefix keys results = Ok found) <->
  (forall key, In key keys -> String.prefix prefix key = true ->
               is_err (GetOne c key) = false).
Proof.
  induction keys as [|key keys IH]; intros results; cbn [GetMultiple_keys].
  - split; [intros _ key [] | eauto].
  - destruct (String.prefix prefix key) eqn:Hp; cbn [negb].
    + destruct (GetOne c key) as [[r|]|e] eqn:Hone.
      * destruct (getEndDated || negb (EndDated r)); rewrite IH;
          (split; [intros H k [<-|Hk] Hpk; [now rewrite Hone | now apply H]
                  | intros H k Hk; apply H; now right]).
      * rewrite IH.
        split; [intros H k [<-|Hk] Hpk; [now rewrite Hone | now apply H]
               | intros H k Hk; apply H; now right].
      * split; [intros [found H]; discriminate|].
        intros H. specialize (H key (or_introl eq_refl) Hp).
        rewrite Hone in H. discriminate.
    + rewrite IH. split; [|intros H k Hk; apply H; now right].
      intros H k [<-|Hk] Hpk; [congruence | now apply H].
Qed.

(** X23: when GetMultiple returns without error, its results are exactly the
    items that GetOne reads under the keys of the database that start with the
    prefix, without those that are end-dated unless getEndDated is set; in
    particular, without getEndDated no result is end-dated. *)
Theorem GetMultiple_returns_exactly
    (c : Client) (d : Database) (getEndDated : bool) (prefix : string)
    (keys : list string) (results : list T) :
  db c = Some d ->
  db_Keys d = Ok keys ->
  GetMultiple c getEndDated prefix = Some (Ok results) ->
  (forall x, In x results <->
     exists key, In key keys /\ String.prefix prefix key = true /\
                 GetOne c key = Ok (Some x) /\
                 (getEndDated || negb (EndDated x)) = true) /\
  (getEndDated = false -> Forall (fun x => EndDated x = false) results).
Proof.
  intros Hdb Hkeys H. unfold GetMultiple in H. rewrite Hdb, Hkeys in H.
  cbn [wrap mbind result_bind] in H. injection H as H.
  assert (forall x, In x results <-> wanted c getEndDated prefix keys x) as Hall.
  { intros x. rewrite (GetMultiple_keys_In _ _ _ _ _ _ H x). cbn [In]. tauto. }
  split; [exact Hall|].
  intros ->. apply List.Forall_forall. intros x Hx.
  apply Hall in Hx as (key & _ & _ & _ & Hkeep).
  cbn [orb] in Hkeep. now apply negb_true_iff in Hkeep.
Qed.

(** X24: with a database whose keys can be listed, GetMultiple fails exactly
    when GetOne fails for a key that starts with the prefix: a key without the
    prefix is never read, and a key under which the database finds nothing
    (hord.ErrNil) is passed over.  Without a database GetOne returns an error
    where GetMultiple panics. *)
Theorem GetMultiple_succeeds_iff
    (c : Client) (getEndDated : bool) (prefix : string) :
  (forall d keys,
     db c = Some d -> db_Keys d = Ok keys ->
     ((exists results, GetMultiple c getEndDated prefix = Some (Ok results)) <->
      (forall key, In key keys -> String.prefix prefix key = true ->
                   is_err (GetOne c key) = false))) /\
  (forall d key, db c = Some d -> db_Get d key = ErrNil -> GetOne c key = Ok None) /\
  (db c = None ->
   GetMultiple c getEndDated prefix = None /\
   forall key, GetOne c key = Err "error missing database connection").
Proof.
  split; [|split].
  - intros d keys Hdb Hkeys. unfold GetMultiple. rewrite Hdb, Hkeys.
    cbn [wrap mbind result_bind].
    rewrite <- (GetMultiple_keys_Ok_iff c getEndDated prefix keys []).
    split; intros [results H]; exists results; congruence.
  - intros d key Hdb Hget. unfold GetOne. now rewrite Hdb, Hget.
  - intros Hdb. unfold GetMultiple, GetOne. now rewrite Hdb.
Qed.

End Generic.

(** A database of four keys; the items are strings, unmarshalled as they are
    stored, end-dated when they start with [old]. *)
Definition example_db : list (string * bytes) :=
  [("Zone_1", "rose"); ("Garden_1", "front"); ("Zone_2", "old tulip");
   ("Zone_3", "fern")]%string.

Definition example_Get (d : list (string * bytes)) (key : string) : GetResult :=
  match List.find (fun kv => String.eqb (fst kv) key) d with
  | Some kv => Data (snd kv)
  | None => ErrNil
  end.

Definition example_Keys (d : list (string * bytes)) : result (list string) :=
  Ok (map fst d ++ ["Zone_4"%string]).

Lemma GetMultiple_returns_exactly_witness :
  GetMultiple string (String.prefix "old") Ok _ example_Get example_Keys
    (mkClient _ (Some example_db)) false "Zone_" = Some (Ok ["rose"; "fern"]%string) /\
  Forall (fun x => String.prefix "old" x = false) ["rose"; "fern"]%string.
Proof.
  split; [reflexivity|].
  apply (GetMultiple_returns_exactly string (String.prefix "old") Ok _
           example_Get example_Keys (mkClient _ (Some example_db)) example_db
           false "Zone_"
           ["Zone_1"; "Garden_1"; "Zone_2"; "Zone_3"; "Zone_4"]%string
           ["rose"; "fern"]%string); reflexivity.
Defined.

End Storage.
